(** * mem0 TiDB vector store: a shallow embedding of
    [mem0/vector_stores/tidb.py] and [mem0/configs/vector_stores/tidb.py].

    The adapter talks to a database through a DB-API cursor. The embedding
    keeps that structure:

    - the adapter's methods build a statement and a parameter list exactly
      as the Python code does, run it through the cursor and map the rows
      that come back to [OutputData];
    - the statement is a small syntax tree with positional [%s]
      placeholders; [mogrify] fills them in textual order, as pymysql does;
    - the database engine is an interpreter of these statements over the
      rows of the collection's table.

    The adapter splices filter keys into the statement text. The tree stands
    for that text as long as every spliced key is a plain member name
    ([plain_key]); for any other key the text is another statement, or
    none, and the embedding stops with [OutsideModel] where the driver
    would format it.

    Floating-point numbers are kept abstract (class [FloatModel]); JSON text
    is carried by the document it spells. *)

From Stdlib Require Import Ascii.
From stdpp Require Import base option list sorting strings gmap pretty.

Set Default Proof Using "Type".
Local Set Warnings "-register-all".
Open Scope Z_scope.

(** ** Floating-point numbers

    A Python [float] and the engine's DOUBLE. The order is the one
    ORDER BY sorts with; [float_repr] is Python's [repr], [float_nonzero]
    Python's truth value of a float. *)
Class FloatModel (num : Type) := {
  float_le : relation num;
  float_le_dec :: RelDecision float_le;
  float_le_total :: Total float_le;
  float_le_trans :: Transitive float_le;
  float_repr : num → string;
  float_nonzero : num → bool;
}.

(** ** Errors and the result monad *)

Inductive error :=
| TypeError          (* Python: wrong argument type or count *)
| IndexError         (* Python: tuple index out of range *)
| ValueError (msg : string)
| ValidationError    (* pydantic: a field does not fit its annotation *)
| JSONDecodeError    (* json.loads on text that is not JSON *)
| ProgrammingError   (* engine: malformed statement *)
| IntegrityError     (* engine: duplicate primary key, NULL in NOT NULL *)
| DataError          (* engine: value does not fit its column *)
| OutsideModel.      (* no exception of the program: the statement text is
                        one that the embedding does not follow *)

Inductive result (A : Type) :=
| Ok (a : A)
| Err (e : error).
Arguments Ok {A} a.
Arguments Err {A} e.

Global Instance result_ret : MRet result := λ A a, Ok a.
Global Instance result_bind : MBind result := λ A B f m,
  match m with Ok a => f a | Err e => Err e end.

Fixpoint mapM_result {A B} (f : A → result B) (l : list A) : result (list B) :=
  match l with
  | [] => Ok []
  | x :: l' => y ← f x; ys ← mapM_result f l'; Ok (y :: ys)
  end.

Fixpoint filterM_result {A} (f : A → result bool) (l : list A) : result (list A) :=
  match l with
  | [] => Ok []
  | x :: l' =>
      b ← f x; ys ← filterM_result f l'; Ok (if b : bool then x :: ys else ys)
  end.

(** ** Python values and JSON documents *)

Section Values.
Context {num : Type} `{!FloatModel num}.

(** A Python scalar; also a JSON scalar ([None] is [null]). *)
Inductive scalar :=
| PyNone
| PyBool (b : bool)
| PyInt (z : Z)
| PyFloat (x : num)
| PyStr (s : string).

(** A JSON-serialisable Python value, which is also the JSON document
    that [json.dumps] spells. A [dict] keeps its insertion order. *)
Inductive json :=
| JScalar (v : scalar)
| JArr (l : list json)
| JObj (m : list (string * json)).

(** [d.get(k)] on a dict with string keys. *)
Fixpoint dict_get {V} (k : string) (m : list (string * V)) : option V :=
  match m with
  | [] => None
  | (k', v) :: m' => if decide (k = k') then Some v else dict_get k m'
  end.

(** Python's [str(v)] on a scalar. *)
Definition py_str (v : scalar) : string :=
  match v with
  | PyNone => "None"
  | PyBool true => "True"
  | PyBool false => "False"
  | PyInt z => pretty z
  | PyFloat x => float_repr x
  | PyStr s => s
  end.

(** Python's truth value [bool(v)]: [None], [False], zero, and the empty
    string, list and dict are false. *)
Definition py_bool (v : json) : bool :=
  match v with
  | JScalar PyNone => false
  | JScalar (PyBool b) => b
  | JScalar (PyInt z) => negb (z =? 0)
  | JScalar (PyFloat x) => float_nonzero x
  | JScalar (PyStr s) => negb (String.eqb s "")
  | JArr l => match l with [] => false | _ :: _ => true end
  | JObj m => match m with [] => false | _ :: _ => true end
  end.

(** ** DB-API values

    What pymysql accepts as a statement parameter and hands back in a
    result row: [None], [int], [float], [str]. A [str] that holds JSON
    text ([json.dumps]'s result, or a JSON column read back) is
    [SqlJson] of the document; any other [str] is [SqlString]. *)
Inductive sqlval :=
| SqlNull
| SqlInt (z : Z)
| SqlDouble (x : num)
| SqlString (s : string)
| SqlJson (j : json).

(** [json.dumps(v)]. *)
Definition json_dumps (v : json) : sqlval := SqlJson v.

(** [json.loads(t)]. *)
Definition json_loads (t : sqlval) : result json :=
  match t with
  | SqlJson j => Ok j
  | SqlString _ => Err JSONDecodeError
  | _ => Err TypeError
  end.

(** Python's truth value of a fetched column: [None], [0], [0.0] and the
    empty string are false; JSON text is never the empty string. *)
Definition truthy (v : sqlval) : bool :=
  match v with
  | SqlNull => false
  | SqlInt z => negb (z =? 0)
  | SqlDouble x => float_nonzero x
  | SqlString s => negb (String.eqb s "")
  | SqlJson _ => true
  end.

(** [str(x)] on a fetched column that is a [str] already, [None] or a
    number. The spelling of JSON text is not modelled. *)
Definition str_of (v : sqlval) : result string :=
  match v with
  | SqlNull => Ok "None"%string
  | SqlInt z => Ok (pretty z)
  | SqlDouble x => Ok (float_repr x)
  | SqlString s => Ok s
  | SqlJson _ => Err TypeError
  end.

(** [float(x)] on a fetched column; [float(None)] raises. Only the DOUBLE
    case is produced by the statements of this adapter. *)
Definition float_of (v : sqlval) : result num :=
  match v with
  | SqlDouble x => Ok x
  | SqlNull => Err TypeError
  | _ => Err (ValueError "float")
  end.

(** [row[i]] on a fetched tuple. *)
Definition getitem (r : list sqlval) (i : nat) : result sqlval :=
  match r !! i with
  | Some v => Ok v
  | None => Err IndexError
  end.
End Values.

Arguments scalar : clear implicits.
Arguments json : clear implicits.
Arguments sqlval : clear implicits.

(** ** Statements

    The SQL text the adapter writes, as a tree. [EPlaceholder] is a [%s];
    a bound statement has [ELit] in its place. The table name
    ([self.collection_name]) is left out: the model is the one table the
    adapter is bound to, under a name that the driver's formatting leaves
    as it is and the server reads as that table's name. *)
Section Statements.
Context {num : Type} `{!FloatModel num}.

Inductive expr :=
| ECol (name : string)
| EPlaceholder
| ELit (v : sqlval num)
| EJsonExtract (e : expr) (path : string)
| EVecCosineDistance (e1 e2 : expr)
| EEq (e1 e2 : expr).

Inductive stmt :=
| SELECT (cols : list (expr * option string)) (where_ : list expr)
         (order_by : option string) (limit : option expr)
| INSERT (cols : list string) (vals : list expr)
| UPDATE (sets : list (string * expr)) (where_ : list expr)
| DELETE (where_ : list expr).

(** *** Text spliced into a statement

    [search] and [list] write a filter key into the path of a
    [JSON_EXTRACT], between single quotes. The driver then formats the
    whole text with [%], the server reads the quoted text as a string
    literal, and the engine reads the string as a JSON path. A key made of
    a letter or an underscore followed by letters, digits and underscores
    passes all three unchanged and names one member. Any other key may do
    something else at each step: a [%] is taken by the driver's formatting,
    a quote or a backslash ends or changes the literal, and a dot, a
    bracket, a star, a space or a leading digit belongs to the path grammar
    or breaks it. *)
Definition name_start (c : ascii) : bool :=
  (Ascii.leb "a" c && Ascii.leb c "z") || (Ascii.leb "A" c && Ascii.leb c "Z")
  || Ascii.eqb c "_".

Definition name_char (c : ascii) : bool :=
  name_start c || (Ascii.leb "0" c && Ascii.leb c "9").

Fixpoint name_chars (s : string) : bool :=
  match s with
  | EmptyString => true
  | String c s' => name_char c && name_chars s'
  end.

Definition plain_key (key : string) : bool :=
  match key with
  | EmptyString => false
  | String c rest => name_start c && name_chars rest
  end.

(** A [%] in a text that the driver formats. *)
Fixpoint has_percent (s : string) : bool :=
  match s with
  | EmptyString => false
  | String c s' => Ascii.eqb c "%" || has_percent s'
  end.

(** The paths the tree stands for: ['$'], and ['$.key'] with a plain key. *)
Definition plain_path (path : string) : bool :=
  match path with
  | String "$"%char EmptyString => true
  | String "$"%char (String "."%char key) => plain_key key
  | _ => false
  end.

(** *** pymysql's [mogrify]: [query % args], left to right. It runs in the
    driver, before anything is sent. At a spliced path that is not plain the
    text is not the one the tree stands for, and the embedding stops. *)

Fixpoint bind_expr (e : expr) (args : list (sqlval num))
  : result (expr * list (sqlval num)) :=
  match e with
  | ECol _ | ELit _ => Ok (e, args)
  | EPlaceholder =>
      match args with
      | a :: args' => Ok (ELit a, args')
      | [] => Err TypeError
      end
  | EJsonExtract e1 path =>
      if plain_path path
      then '(e1', args1) ← bind_expr e1 args; Ok (EJsonExtract e1' path, args1)
      else Err OutsideModel
  | EVecCosineDistance e1 e2 =>
      '(e1', args1) ← bind_expr e1 args;
      '(e2', args2) ← bind_expr e2 args1;
      Ok (EVecCosineDistance e1' e2', args2)
  | EEq e1 e2 =>
      '(e1', args1) ← bind_expr e1 args;
      '(e2', args2) ← bind_expr e2 args1;
      Ok (EEq e1' e2', args2)
  end.

Fixpoint bind_exprs (es : list expr) (args : list (sqlval num))
  : result (list expr * list (sqlval num)) :=
  match es with
  | [] => Ok ([], args)
  | e :: es' =>
      '(e', args1) ← bind_expr e args;
      '(es'', args2) ← bind_exprs es' args1;
      Ok (e' :: es'', args2)
  end.

Definition bind_opt (e : option expr) (args : list (sqlval num))
  : result (option expr * list (sqlval num)) :=
  match e with
  | None => Ok (None, args)
  | Some e1 => '(e1', args1) ← bind_expr e1 args; Ok (Some e1', args1)
  end.

Definition all_converted {A} (x : A) (args : list (sqlval num)) : result A :=
  match args with
  | [] => Ok x
  | _ :: _ => Err TypeError
  end.

Definition mogrify (q : stmt) (args : list (sqlval num)) : result stmt :=
  match q with
  | SELECT cols where_ order_by limit =>
      '(es, args1) ← bind_exprs (cols.*1) args;
      '(where', args2) ← bind_exprs where_ args1;
      '(limit', args3) ← bind_opt limit args2;
      all_converted (SELECT (zip es (cols.*2)) where' order_by limit') args3
  | INSERT cols vals =>
      '(vals', args1) ← bind_exprs vals args;
      all_converted (INSERT cols vals') args1
  | UPDATE sets where_ =>
      '(es, args1) ← bind_exprs (sets.*2) args;
      '(where', args2) ← bind_exprs where_ args1;
      all_converted (UPDATE (zip (sets.*1) es) where') args2
  | DELETE where_ =>
      '(where', args1) ← bind_exprs where_ args;
      all_converted (DELETE where') args1
  end.
End Statements.

Arguments expr : clear implicits.
Arguments stmt : clear implicits.

(** ** The engine

    One table with the schema [create_col] declares:
    [id VARCHAR(36) PRIMARY KEY, vector JSON NOT NULL, payload JSON].
    [VEC_COSINE_DISTANCE] is the engine's distance function over two JSON
    arrays. *)
Section Engine.
Context {num : Type} `{!FloatModel num}.
Variable VEC_COSINE_DISTANCE : json num → json num → num.

Record row := Row {
  row_id : string;
  row_vector : json num;
  row_payload : option (json num);
}.

Definition column (r : row) (name : string) : result (sqlval num) :=
  match name with
  | "id" => Ok (SqlString (row_id r))
  | "vector" => Ok (SqlJson (row_vector r))
  | "payload" => Ok (from_option SqlJson SqlNull (row_payload r))
  | _ => Err ProgrammingError
  end%string.

(** An argument of a JSON function: NULL, or a JSON document. *)
Definition as_json (v : sqlval num) : result (option (json num)) :=
  match v with
  | SqlNull => Ok None
  | SqlJson j => Ok (Some j)
  | _ => Err DataError
  end.

(** [JSON_EXTRACT(doc, path)] for the plain paths: ['$'] is the document,
    ['$.key'] the member [key] of an object, NULL when the document is not
    an object or has no such member. The rest of the engine's path grammar
    (nested members, array cells, wildcards, quoted names, and the errors
    for text that is no path) is not modelled. *)
Definition JSON_EXTRACT (doc : sqlval num) (path : string) : result (sqlval num) :=
  if plain_path path then
    d ← as_json doc;
    match d with
    | None => Ok SqlNull
    | Some j =>
        match path with
        | String "$"%char (String "."%char key) =>
            Ok (match j with
                | JObj m => from_option SqlJson SqlNull (dict_get key m)
                | _ => SqlNull
                end)
        | _ => Ok (SqlJson j)
        end
    end
  else Err OutsideModel.

Definition sql_bool (b : bool) : sqlval num := SqlInt (if b then 1 else 0).

(** [a = b]. NULL if either side is NULL. A JSON value equals an SQL
    string when it is the JSON string with those characters. Comparisons
    the adapter never writes are not modelled. *)
Definition sql_eq (a b : sqlval num) : result (sqlval num) :=
  match a, b with
  | SqlNull, _ | _, SqlNull => Ok SqlNull
  | SqlString s, SqlString t => Ok (sql_bool (bool_decide (s = t)))
  | SqlInt x, SqlInt y => Ok (sql_bool (bool_decide (x = y)))
  | SqlJson (JScalar (PyStr s)), SqlString t
  | SqlString t, SqlJson (JScalar (PyStr s)) => Ok (sql_bool (bool_decide (s = t)))
  | SqlJson _, SqlString _ | SqlString _, SqlJson _ => Ok (sql_bool false)
  | _, _ => Err ProgrammingError
  end.

Definition vec_cosine_distance (a b : sqlval num) : result (sqlval num) :=
  ja ← as_json a; jb ← as_json b;
  match ja, jb with
  | Some x, Some y => Ok (SqlDouble (VEC_COSINE_DISTANCE x y))
  | _, _ => Ok SqlNull
  end.

Fixpoint eval_expr (r : row) (e : expr num) : result (sqlval num) :=
  match e with
  | ECol name => column r name
  | EPlaceholder => Err ProgrammingError
  | ELit v => Ok v
  | EJsonExtract e1 path => v ← eval_expr r e1; JSON_EXTRACT v path
  | EVecCosineDistance e1 e2 =>
      a ← eval_expr r e1; b ← eval_expr r e2; vec_cosine_distance a b
  | EEq e1 e2 => a ← eval_expr r e1; b ← eval_expr r e2; sql_eq a b
  end.

(** A WHERE clause keeps a row when every conjunct is true (not NULL, not
    false). *)
Definition sql_true (v : sqlval num) : bool :=
  match v with
  | SqlInt z => negb (z =? 0)
  | _ => false
  end.

Fixpoint where_holds (r : row) (conds : list (expr num)) : result bool :=
  match conds with
  | [] => Ok true
  | c :: cs => v ← eval_expr r c; b ← where_holds r cs; Ok (sql_true v && b)
  end.

(** *** SELECT *)

Fixpoint alias_index (a : string) (cols : list (expr num * option string)) : option nat :=
  match cols with
  | [] => None
  | (_, Some a') :: cols' =>
      if decide (a = a') then Some 0%nat else S <$> alias_index a cols'
  | (_, None) :: cols' => S <$> alias_index a cols'
  end.

(** ORDER BY sorts ascending; the model orders DOUBLE keys. *)
Definition order_key (i : nat) (r : list (sqlval num)) : result (num * list (sqlval num)) :=
  v ← getitem r i;
  match v with
  | SqlDouble x => Ok (x, r)
  | _ => Err ProgrammingError
  end.

Definition key_le (a b : num * list (sqlval num)) : Prop := float_le a.1 b.1.

Global Instance key_le_dec : RelDecision key_le.
Proof. intros a b. unfold key_le. apply _. Defined.

Definition order_rows (cols : list (expr num * option string)) (order_by : option string)
    (rows : list (list (sqlval num))) : result (list (list (sqlval num))) :=
  match order_by with
  | None => Ok rows
  | Some a =>
      match alias_index a cols with
      | None => Err ProgrammingError
      | Some i => keyed ← mapM_result (order_key i) rows; Ok ((merge_sort key_le keyed).*2)
      end
  end.

(** LIMIT takes a non-negative integer literal. *)
Definition apply_limit {A} (limit : option (expr num)) (rows : list A) : result (list A) :=
  match limit with
  | None => Ok rows
  | Some (ELit (SqlInt n)) =>
      if decide (n < 0) then Err ProgrammingError else Ok (take (Z.to_nat n) rows)
  | Some _ => Err ProgrammingError
  end.

(** Without ORDER BY the engine may hand the rows back in any order, and
    LIMIT then keeps any of them; with ORDER BY the order among equal keys
    is the engine's. The model scans the table in the order of [t] and
    sorts with [merge_sort]: one of the answers the engine may give. The
    theorems about what [search] and [list] return are stated for any of
    them, up to a permutation of the rows. *)
Definition exec_select (cols : list (expr num * option string)) (where_ : list (expr num))
    (order_by : option string) (limit : option (expr num)) (t : list row)
  : result (list (list (sqlval num))) :=
  kept ← filterM_result (λ r, where_holds r where_) t;
  projected ← mapM_result (λ r, mapM_result (λ c, eval_expr r c.1) cols) kept;
  sorted ← order_rows cols order_by projected;
  apply_limit limit sorted.

(** *** INSERT, UPDATE, DELETE *)

(** Storing a value in a column: the key is a string of at most 36
    characters, [vector] a JSON document, [payload] a JSON document or
    NULL. *)
Definition set_column (name : string) (v : sqlval num) (r : row) : result row :=
  match name with
  | "id" =>
      match v with
      | SqlString s =>
          if decide (String.length s ≤ 36)%nat
          then Ok (Row s (row_vector r) (row_payload r)) else Err DataError
      | SqlNull => Err IntegrityError
      | _ => Err DataError
      end
  | "vector" =>
      match v with
      | SqlJson j => Ok (Row (row_id r) j (row_payload r))
      | SqlNull => Err IntegrityError
      | _ => Err DataError
      end
  | "payload" =>
      match v with
      | SqlJson j => Ok (Row (row_id r) (row_vector r) (Some j))
      | SqlNull => Ok (Row (row_id r) (row_vector r) None)
      | _ => Err DataError
      end
  | _ => Err ProgrammingError
  end%string.

Fixpoint assign (r0 : row) (sets : list (string * expr num)) (r : row) : result row :=
  match sets with
  | [] => Ok r
  | (name, e) :: sets' => v ← eval_expr r0 e; r' ← set_column name v r; assign r0 sets' r'
  end.

(** A new row must be given its key and its vector; a column left out is
    NULL. *)
Definition new_row (cols : list string) (vals : list (expr num)) : result row :=
  if decide (length cols = length vals) then
    if decide ("id"%string ∈ cols ∧ "vector"%string ∈ cols) then
      let blank := Row "" (JScalar PyNone) None in
      assign blank (zip cols vals) blank
    else Err IntegrityError
  else Err ProgrammingError.

Definition exec_update (sets : list (string * expr num)) (where_ : list (expr num))
    (t : list row) : result (list row) :=
  mapM_result (λ r, b ← where_holds r where_; if b : bool then assign r sets r else Ok r) t.

Definition exec_delete (where_ : list (expr num)) (t : list row) : result (list row) :=
  filterM_result (λ r, b ← where_holds r where_; Ok (negb b)) t.

(** The primary key: no two rows with one [id]. *)
Definition check_primary_key (t : list row) : result (list row) :=
  if decide (NoDup (row_id <$> t)) then Ok t else Err IntegrityError.

(** ** The connection: table, cursor, and the source of random UUIDs

    [uuid_drawn] counts the calls of [uuid.uuid4()] so far. *)
Record world := World {
  db_rows : list row;
  cur_rows : list (list (sqlval num));
  uuid_drawn : nat;
}.

Definition M (A : Type) : Type := world → result (A * world).

Global Instance M_ret : MRet M := λ A a w, Ok (a, w).
Global Instance M_bind : MBind M := λ A B f m w,
  match m w with Ok (a, w') => f a w' | Err e => Err e end.

Definition lift {A} (r : result A) : M A := λ w,
  match r with Ok a => Ok (a, w) | Err e => Err e end.

(** [cursor.execute(query, args)] *)
Definition execute (query : stmt num) (args : list (sqlval num)) : M unit := λ w,
  q ← mogrify query args;
  match q with
  | SELECT cols where_ order_by limit =>
      rows ← exec_select cols where_ order_by limit (db_rows w);
      Ok ((), World (db_rows w) rows (uuid_drawn w))
  | INSERT cols vals =>
      r ← new_row cols vals;
      t ← check_primary_key (db_rows w ++ [r]);
      Ok ((), World t [] (uuid_drawn w))
  | UPDATE sets where_ =>
      t ← exec_update sets where_ (db_rows w);
      Ok ((), World t [] (uuid_drawn w))
  | DELETE where_ =>
      t ← exec_delete where_ (db_rows w);
      Ok ((), World t [] (uuid_drawn w))
  end.

(** [cursor.executemany(query, data)] with an INSERT ... VALUES statement:
    pymysql sends one multi-row INSERT, which the engine applies as a whole
    or not at all. *)
Definition values_row (query : stmt num) (args : list (sqlval num)) : result row :=
  q ← mogrify query args;
  match q with
  | INSERT cols vals => new_row cols vals
  | _ => Err ProgrammingError
  end.

Definition executemany (query : stmt num) (data : list (list (sqlval num))) : M unit := λ w,
  match data with
  | [] => Ok ((), w)
  | _ :: _ =>
      rows ← mapM_result (values_row query) data;
      t ← check_primary_key (db_rows w ++ rows);
      Ok ((), World t [] (uuid_drawn w))
  end.

(** [cursor.fetchall()] *)
Definition fetchall : M (list (list (sqlval num))) := λ w,
  Ok (cur_rows w, World (db_rows w) [] (uuid_drawn w)).

(** [cursor.fetchone()] *)
Definition fetchone : M (option (list (sqlval num))) := λ w,
  match cur_rows w with
  | [] => Ok (None, w)
  | r :: rest => Ok (Some r, World (db_rows w) rest (uuid_drawn w))
  end.
End Engine.

Arguments row : clear implicits.
Arguments world : clear implicits.

(** ** [OutputData]

    The pydantic model [OutputData(id: Optional[str], score: Optional[float],
    payload: Optional[dict])]. *)
Module OutputData.
Section Def.
Context {num : Type}.

Record t := mk {
  id : option string;
  score : option num;
  payload : option (list (string * json num));
}.

(** [OutputData(id=.., score=.., payload=..)] with the validation of the
    [payload] annotation: a dict or [None] passes. *)
Definition new (id : string) (score : option num) (payload : json num) : result t :=
  match payload with
  | JObj m => Ok (mk (Some id) score (Some m))
  | JScalar PyNone => Ok (mk (Some id) score None)
  | _ => Err ValidationError
  end.
End Def.
Arguments t : clear implicits.
End OutputData.

(** ** The adapter: class [TiDB] *)
Module TiDB.
Section Adapter.
Context {num : Type} `{!FloatModel num}.
Variable VEC_COSINE_DISTANCE : json num → json num → num.
(** [uuid4 n] is the string of the UUID that the [n]-th call of
    [uuid.uuid4()] returns. *)
Variable uuid4 : nat → string.

Abbreviation M := (M (num := num)).
Abbreviation execute := (execute VEC_COSINE_DISTANCE).
Abbreviation executemany := (executemany VEC_COSINE_DISTANCE).

(** A vector [List[float]] as the value [json.dumps] takes. *)
Definition vector_value (vector : list num) : json num :=
  JArr ((λ x, JScalar (PyFloat x)) <$> vector).

(** [[str(uuid.uuid4()) for _ in range(n)]] *)
Definition fresh_ids (n : nat) : M (list string) := λ w,
  Ok (uuid4 <$> seq (uuid_drawn w) n,
      World (db_rows w) (cur_rows w) (uuid_drawn w + n)%nat).

(** [l[i]] on a Python list. *)
Definition item {A} (l : list A) (i : nat) : result A :=
  match l !! i with
  | Some x => Ok x
  | None => Err IndexError
  end.

Definition insert_sql : stmt num :=
  INSERT ["id"; "vector"; "payload"]%string [EPlaceholder; EPlaceholder; EPlaceholder].

Definition insert (vectors : list (list num))
    (payloads : option (list (list (string * json num))))
    (ids : option (list string)) : M unit :=
  match vectors with
  | [] => mret ()
  | _ :: _ =>
      ids ← match ids with
            | None => fresh_ids (length vectors)
            | Some ids => mret ids
            end;
      let payloads :=
        match payloads with
        | None => replicate (length vectors) []
        | Some payloads => payloads
        end in
      data ← lift (mapM_result (λ '(i, vector),
                id ← item ids i;
                payload ← item payloads i;
                Ok [SqlString id; json_dumps (vector_value vector);
                    json_dumps (JObj payload)])
              (imap pair vectors));
      executemany insert_sql data
  end.

(** [f"JSON_EXTRACT(payload, '$.{key}') = %s"]: the key goes into the path
    as it is; what becomes of it is [mogrify]'s and the engine's. *)
Definition filter_condition (key : string) : expr num :=
  EEq (EJsonExtract (ECol "payload") ("$." +:+ key)) EPlaceholder.

(** The loop over [filters.items()], entered when [filters] is neither
    [None] nor empty: the conditions, and the parameters [str(value)]. *)
Definition filter_clause (filters : option (list (string * scalar num)))
  : list (expr num) * list (sqlval num) :=
  match filters with
  | Some ((_ :: _) as items) =>
      ((λ kv, filter_condition kv.1) <$> items, (λ kv, SqlString (py_str kv.2)) <$> items)
  | _ => ([], [])
  end.

(** [json.loads(c) if c else {}] *)
Definition decode_payload (c : sqlval num) : result (json num) :=
  if truthy c then json_loads c else Ok (JObj []).

Definition search_columns : list (expr num * option string) :=
  [(ECol "id", None);
   (EVecCosineDistance (EJsonExtract (ECol "vector") "$") (EJsonExtract EPlaceholder "$"),
    Some "distance"%string);
   (ECol "payload", None)].

Definition search_output (row : list (sqlval num)) : result (OutputData.t num) :=
  c0 ← getitem row 0; id ← str_of c0;
  c1 ← getitem row 1; score ← float_of c1;
  c2 ← getitem row 2; payload ← decode_payload c2;
  OutputData.new id (Some score) payload.

Definition search (query : string) (vectors : list num) (limit : Z)
    (filters : option (list (string * scalar num))) : M (list (OutputData.t num)) :=
  let vector_json := json_dumps (vector_value vectors) in
  let query_params := [vector_json] in
  let '(filter_conditions, filter_params) := filter_clause filters in
  let query_params := query_params ++ filter_params in
  let base_query :=
    SELECT search_columns filter_conditions (Some "distance"%string) (Some EPlaceholder) in
  let query_params := query_params ++ [SqlInt limit] in
  _ ← execute base_query query_params;
  results ← fetchall;
  lift (mapM_result search_output results).

Definition by_id : list (expr num) := [EEq (ECol "id") EPlaceholder].

Definition delete (vector_id : string) : M unit :=
  execute (DELETE by_id) [SqlString vector_id].

Definition update (vector_id : string) (vector : option (list num))
    (payload : option (list (string * json num))) : M unit :=
  let updates := [] in
  let params := [] in
  let '(updates, params) :=
    match vector with
    | Some vector =>
        (updates ++ [("vector"%string, EPlaceholder)],
         params ++ [json_dumps (vector_value vector)])
    | None => (updates, params)
    end in
  let '(updates, params) :=
    match payload with
    | Some payload =>
        (updates ++ [("payload"%string, EPlaceholder)],
         params ++ [json_dumps (JObj payload)])
    | None => (updates, params)
    end in
  match updates with
  | [] => mret ()
  | _ :: _ =>
      let params := params ++ [SqlString vector_id] in
      execute (UPDATE updates by_id) params
  end.

Definition plain_columns : list (expr num * option string) :=
  [(ECol "id", None); (ECol "vector", None); (ECol "payload", None)].

Definition plain_output (row : list (sqlval num)) : result (OutputData.t num) :=
  c0 ← getitem row 0; id ← str_of c0;
  c2 ← getitem row 2; payload ← decode_payload c2;
  OutputData.new id None payload.

Definition get (vector_id : string) : M (option (OutputData.t num)) :=
  _ ← execute (SELECT plain_columns by_id None None) [SqlString vector_id];
  result ← fetchone;
  match result with
  | None => mret None
  | Some row => out ← lift (plain_output row); mret (Some out)
  end.

Definition list (filters : option (list (string * scalar num))) (limit : Z)
  : M (list (list (OutputData.t num))) :=
  let query_params := [] in
  let '(filter_conditions, filter_params) := filter_clause filters in
  let query_params := query_params ++ filter_params in
  let base_query := SELECT plain_columns filter_conditions None (Some EPlaceholder) in
  let query_params := query_params ++ [SqlInt limit] in
  _ ← execute base_query query_params;
  results ← fetchall;
  outs ← lift (mapM_result plain_output results);
  mret [outs].
End Adapter.
End TiDB.

(** ** The configuration: class [TiDBConfig]

    The declared fields, and the two [model_validator(mode="before")]
    functions, which see the raw input mapping before pydantic validates
    any field. [validate] is the call of the class on the input mapping. *)
Module TiDBConfig.

(** The annotations of the fields. *)
Inductive annotation :=
| AStr
| AInt
| ABool
| AOptional (a : annotation).

Section Validators.
Context {num : Type} `{!FloatModel num}.
(** pydantic's validation of an input value against [str], [int] or
    [bool]: the value the field gets, or [None] when pydantic reports an
    error. The rule is the library's. *)
Variable coerce : annotation → json num → option (json num).

(** [Optional[T]] takes [None], and validates any other value as [T]. *)
Fixpoint field_value (a : annotation) (v : json num) : option (json num) :=
  match a with
  | AOptional a' =>
      match v with
      | JScalar PyNone => Some v
      | _ => field_value a' v
      end
  | _ => coerce a v
  end.

(** The fields of the class: name, annotation, and the default of [Field]
    where it has one. *)
Definition fields : list (string * annotation * option (json num)) :=
  [("host", AStr, None);
   ("port", AInt, Some (JScalar (PyInt 4000)));
   ("user", AStr, None);
   ("password", AStr, None);
   ("database", AStr, None);
   ("collection_name", AStr, Some (JScalar (PyStr "mem0")));
   ("embedding_model_dims", AOptional AInt, Some (JScalar (PyInt 1536)));
   ("ssl_disabled", ABool, Some (JScalar (PyBool false)));
   ("ssl_ca", AOptional AStr, Some (JScalar PyNone));
   ("ssl_cert", AOptional AStr, Some (JScalar PyNone));
   ("ssl_key", AOptional AStr, Some (JScalar PyNone));
   ("ssl_verify_cert", ABool, Some (JScalar (PyBool true)));
   ("ssl_verify_identity", ABool, Some (JScalar (PyBool true)))]%string.

(** [cls.model_fields.keys()]: the declared fields. *)
Definition model_fields : list string :=
  ["host"; "port"; "user"; "password"; "database"; "collection_name";
   "embedding_model_dims"; "ssl_disabled"; "ssl_ca"; "ssl_cert"; "ssl_key";
   "ssl_verify_cert"; "ssl_verify_identity"]%string.

Definition required_fields : list string :=
  ["host"; "user"; "password"; "database"]%string.

(** [not values.get(field)] *)
Definition not_get (values : gmap string (json num)) (field : string) : bool :=
  match values !! field with
  | None => true
  | Some v => negb (py_bool v)
  end.

Definition check_required_fields (values : gmap string (json num))
  : result (gmap string (json num)) :=
  let missing_fields := filter (λ field, not_get values field) required_fields in
  match missing_fields with
  | _ :: _ =>
      Err (ValueError ("Missing required fields: " +:+ String.concat ", " missing_fields))
  | [] => Ok values
  end.

(** The order in which a Python set is joined is not specified; the
    message lists the fields in the order of [elements]. *)
Definition validate_extra_fields (values : gmap string (json num))
  : result (gmap string (json num)) :=
  let allowed_fields : gset string := list_to_set model_fields in
  let input_fields : gset string := dom values in
  let extra_fields := input_fields ∖ allowed_fields in
  if decide (extra_fields = ∅) then Ok values
  else Err (ValueError ("Extra fields not allowed: "
              +:+ String.concat ", " (elements extra_fields)
              +:+ ". Please input only the following fields: "
              +:+ String.concat ", " (elements allowed_fields))).

(** The value of one field of the object: the input's value, validated, or
    the default; a field with neither is reported. *)
Definition field_result (values : gmap string (json num))
    (field : string * annotation * option (json num)) : result (string * json num) :=
  let '(name, a, default) := field in
  match values !! name with
  | Some v =>
      match field_value a v with
      | Some v' => Ok (name, v')
      | None => Err ValidationError
      end
  | None =>
      match default with
      | Some d => Ok (name, d)
      | None => Err ValidationError
      end
  end.

Definition validate_fields (values : gmap string (json num))
  : result (list (string * json num)) :=
  mapM_result (field_result values) fields.

(** The call of the class on the input mapping. pydantic runs the
    "before" validators of a model from the last declared to the first, each on the mapping the
    previous one returned, and reports a [ValueError] raised by one of them
    as its [ValidationError]; then it validates the fields. The result is
    the object's fields, in the order they are declared. *)
Definition validate (values : gmap string (json num))
  : result (list (string * json num)) :=
  match (values ← validate_extra_fields values; check_required_fields values) with
  | Ok values => validate_fields values
  | Err (ValueError _) => Err ValidationError
  | Err e => Err e
  end.
End Validators.
End TiDBConfig.

(** ** What the adapter's statements compute

    The functions below read off, row by row, what the engine does with the
    statements that [search], [get] and [list] send. They are related to
    the engine by the lemmas that follow. *)
Section Reading.
Context {num : Type} `{!FloatModel num}.
Variable VEC_COSINE_DISTANCE : json num → json num → num.

(** The entries the filter loop runs over. *)
Definition filter_items (filters : option (list (string * scalar num)))
  : list (string * scalar num) :=
  match filters with
  | Some items => items
  | None => []
  end.

(** The caller's contract for filter keys: each is a plain member name. *)
Definition plain_keys (items : list (string * scalar num)) : Prop :=
  Forall (λ kv, plain_key kv.1) items.

(** A filter condition with its parameter in place. *)
Definition bound_condition (kv : string * scalar num) : expr num :=
  EEq (EJsonExtract (ECol "payload") ("$." +:+ kv.1)) (ELit (SqlString (py_str kv.2))).

(** The payload of [r] is an object whose member [k] is the JSON string
    [s]. *)
Definition holds_string (r : row num) (k s : string) : bool :=
  match row_payload r with
  | Some (JObj m) =>
      match dict_get k m with
      | Some (JScalar (PyStr s')) => bool_decide (s' = s)
      | _ => false
      end
  | _ => false
  end.

(** The rows the WHERE clause of [search] and [list] keeps. *)
Definition selected (items : list (string * scalar num)) (r : row num) : bool :=
  forallb (λ kv, holds_string r kv.1 (py_str kv.2)) items.

Definition payload_column (r : row num) : sqlval num :=
  from_option SqlJson SqlNull (row_payload r).

(** The distance the engine computes for a stored row. *)
Definition distance_to (query_vector : list num) (r : row num) : num :=
  VEC_COSINE_DISTANCE (row_vector r) (TiDB.vector_value query_vector).

Definition search_tuple (query_vector : list num) (r : row num) : list (sqlval num) :=
  [SqlString (row_id r); SqlDouble (distance_to query_vector r); payload_column r].

Definition plain_tuple (r : row num) : list (sqlval num) :=
  [SqlString (row_id r); SqlJson (row_vector r); payload_column r].

(** The stored payload is NULL or a JSON object: what [insert] and [update]
    write when they are given dicts. *)
Definition payload_is_mapping (r : row num) : Prop :=
  match row_payload r with
  | None | Some (JObj _) => True
  | Some _ => False
  end.

Definition payload_mapping (r : row num) : list (string * json num) :=
  match row_payload r with
  | Some (JObj m) => m
  | _ => []
  end.

(** The record returned for a stored row. *)
Definition row_output (score : option num) (r : row num) : OutputData.t num :=
  OutputData.mk (Some (row_id r)) score (Some (payload_mapping r)).

(** The claim's reading of a filter entry: the payload has the key, with
    that very value. *)
Definition payload_has (r : row num) (k : string) (v : scalar num) : Prop :=
  ∃ m, row_payload r = Some (JObj m) ∧ dict_get k m = Some (JScalar v).

Definition satisfies (items : list (string * scalar num)) (r : row num) : Prop :=
  ∀ k v, (k, v) ∈ items → payload_has r k v.

(** The code's reading of a filter entry: the payload has the key, with the
    JSON string that spells [str(value)]. *)
Definition keeps (items : list (string * scalar num)) (r : row num) : Prop :=
  ∀ k v, (k, v) ∈ items → payload_has r k (PyStr (py_str v)).

(** What UPDATE leaves of a row it matches: the fields given are replaced,
    the others kept. *)
Definition rewritten (vector : option (list num))
    (payload : option (list (string * json num))) (r : row num) : row num :=
  Row (row_id r)
      (from_option TiDB.vector_value (row_vector r) vector)
      (from_option (λ p, Some (JObj p)) (row_payload r) payload).

(** The rows [insert] adds when it is given vectors only: the [i]-th
    vector under the UUID of the [i]-th draw, with an empty payload. *)
Definition default_rows (uuid4 : nat → string) (drawn : nat)
    (vectors : list (list num)) : list (row num) :=
  imap (λ i vector,
          Row (uuid4 (drawn + i)%nat) (TiDB.vector_value vector) (Some (JObj [])))
       vectors.

(** The table as a call leaves it: no result set pending. *)
Definition settled (w : world num) : world num :=
  World (db_rows w) [] (uuid_drawn w).
End Reading.

(** ** Reachable states

    A fresh collection, then any calls of the adapter's data operations that
    return. The collection's lifecycle ([create_col], [delete_col],
    [reset]) is not part of the model. *)
Section Reachable.
Context {num : Type} `{!FloatModel num}.
Variable VEC_COSINE_DISTANCE : json num → json num → num.
Variable uuid4 : nat → string.

Inductive call :=
| CallInsert (vectors : list (list num))
    (payloads : option (list (list (string * json num)))) (ids : option (list string))
| CallSearch (query : string) (vectors : list num) (limit : Z)
    (filters : option (list (string * scalar num)))
| CallDelete (vector_id : string)
| CallUpdate (vector_id : string) (vector : option (list num))
    (payload : option (list (string * json num)))
| CallGet (vector_id : string)
| CallList (filters : option (list (string * scalar num))) (limit : Z).

Definition after {A} (r : result (A * world num)) : result (world num) :=
  match r with
  | Ok (_, w) => Ok w
  | Err e => Err e
  end.

Definition run (c : call) (w : world num) : result (world num) :=
  match c with
  | CallInsert vectors payloads ids =>
      after (TiDB.insert VEC_COSINE_DISTANCE uuid4 vectors payloads ids w)
  | CallSearch query vectors limit filters =>
      after (TiDB.search VEC_COSINE_DISTANCE query vectors limit filters w)
  | CallDelete vector_id => after (TiDB.delete VEC_COSINE_DISTANCE vector_id w)
  | CallUpdate vector_id vector payload =>
      after (TiDB.update VEC_COSINE_DISTANCE vector_id vector payload w)
  | CallGet vector_id => after (TiDB.get VEC_COSINE_DISTANCE vector_id w)
  | CallList filters limit => after (TiDB.list VEC_COSINE_DISTANCE filters limit w)
  end.

Inductive reachable : world num → Prop :=
| reachable_fresh (drawn : nat) : reachable (World [] [] drawn)
| reachable_call (c : call) (w w' : world num) :
    reachable w → run c w = Ok w' → reachable w'.
End Reachable.

(** ** A concrete instance, for running the model

    Integers stand in for floats, with the squared Euclidean distance as the
    engine's distance function, and a counter spelled in 36 characters as
    the UUID source. *)
Module Demo.
Global Instance Z_float : FloatModel Z := {|
  float_le := Z.le;
  float_repr := pretty;
  float_nonzero := λ x, negb (x =? 0);
|}.

Definition component (j : json Z) : Z :=
  match j with
  | JScalar (PyFloat x) => x
  | JScalar (PyInt x) => x
  | _ => 0
  end.

Fixpoint sq_dist (a b : list (json Z)) : Z :=
  match a, b with
  | x :: a', y :: b' => (component x - component y) * (component x - component y) + sq_dist a' b'
  | _, _ => 0
  end.

Definition distance (a b : json Z) : Z :=
  match a, b with
  | JArr a, JArr b => sq_dist a b
  | _, _ => 0
  end.

Definition uuid4 (n : nat) : string :=
  "00000000-0000-4000-8000-00000000000" +:+ pretty n.

Definition w0 : world Z := World [] [] 0.

(** A stand-in for pydantic's rule: it takes a value of the annotated type
    as it is and refuses any other. pydantic also converts some values of
    another type (a string of digits for an [int], 0 and 1 for a [bool]);
    the inputs used with the stand-in are not among them. *)
Definition coerce (a : TiDBConfig.annotation) (v : json Z) : option (json Z) :=
  match a, v with
  | TiDBConfig.AStr, JScalar (PyStr _)
  | TiDBConfig.AInt, JScalar (PyInt _)
  | TiDBConfig.ABool, JScalar (PyBool _) => Some v
  | _, _ => None
  end.

(** Three stored records at distances 1, 4 and 9 from the origin, with a
    mixed set of payloads. *)
Definition rows3 : list (row Z) :=
  [ Row "b" (TiDB.vector_value [2; 0]) (Some (JObj [("k", JScalar (PyStr "v"))]%string));
    Row "a" (TiDB.vector_value [1; 0]) (Some (JObj [("k", JScalar (PyInt 5))]%string));
    Row "c" (TiDB.vector_value [3; 0]) None ].
End Demo.

(** ** The connection and the collection's lifecycle

    [__init__], [_create_connection], [create_col], [list_cols],
    [delete_col], [col_info] and [reset]. The server holds the tables of the
    database the adapter connects to, each with the schema of [create_col];
    the adapter's data operations run on the table that
    [self.collection_name], spliced between backticks into the statement,
    names to the server. Table names are compared as they are written. An
    exception leaves the server as the failed statement found it. *)

(** The values of [self.ssl_config] and of the keyword arguments of
    [pymysql.connect]. *)
Inductive ssl_value :=
| SslPath (path : string)
| SslFlag (flag : bool).

Inductive connect_value :=
| ConnStr (s : string)
| ConnInt (z : Z)
| ConnBool (b : bool)
| ConnSsl (ssl : gmap string ssl_value).

Inductive outcome (A : Type) :=
| Returned (a : A)
| Raised (e : error)
| RaisedOperationalError.   (* pymysql: the connection could not be made *)
Arguments Returned {A} a.
Arguments Raised {A} e.
Arguments RaisedOperationalError {A}.

Module Instance.
Section Lifecycle.
Context {num : Type} `{!FloatModel num}.
(** Whether the server takes a connection made with these arguments (host
    reached, credentials and database known, TLS agreed). *)
Variable accepts : gmap string connect_value → bool.
(** The catalog's [TABLE_ROWS], [DATA_LENGTH] and [INDEX_LENGTH] of a table:
    the engine's estimates, each a BIGINT or NULL. *)
Variable table_statistics : string → list (row num) → option Z * option Z * option Z.
(** The table that a text between backticks names to the server, or [None]
    when the server refuses the statement it is spliced into (an empty name,
    a name too long, a backtick that ends the quotation early). *)
Variable quoted_identifier : string → option string.

Record server := Server {
  schema : string;
  tables : gmap string (list (row num));
  result_set : list (list (sqlval num));
  drawn : nat;
  connected : list (gmap string connect_value);
}.

Definition S (A : Type) : Type := server → outcome A * server.

Global Instance S_ret : MRet S := λ A a s, (Returned a, s).
Global Instance S_bind : MBind S := λ A B f m s,
  match m s with
  | (Returned a, s') => f a s'
  | (Raised e, s') => (Raised e, s')
  | (RaisedOperationalError, s') => (RaisedOperationalError, s')
  end.

Definition lift_result {A} (r : result A) : S A := λ s,
  match r with Ok a => (Returned a, s) | Err e => (Raised e, s) end.

(** The fields [__init__] sets. *)
Record adapter := Adapter {
  host : string;
  port : Z;
  user : string;
  password : string;
  database : string;
  collection_name : string;
  embedding_model_dims : Z;
  ssl_config : gmap string ssl_value;
}.

(** The SSL configuration of [__init__]: nothing when SSL is disabled; else
    the paths that are given and not empty, and the two flags. *)
Definition build_ssl_config (ssl_disabled : bool) (ssl_ca ssl_cert ssl_key : option string)
    (ssl_verify_cert ssl_verify_identity : bool) : gmap string ssl_value :=
  let ssl_config : gmap string ssl_value := ∅ in
  if ssl_disabled then ssl_config
  else
    let given (path : option string) : option string :=
      match path with
      | Some p => if String.eqb p "" then None else Some p
      | None => None
      end in
    let ssl_config :=
      match given ssl_ca with
      | Some p => <["ca"%string := SslPath p]> ssl_config
      | None => ssl_config
      end in
    let ssl_config :=
      match given ssl_cert with
      | Some p => <["cert"%string := SslPath p]> ssl_config
      | None => ssl_config
      end in
    let ssl_config :=
      match given ssl_key with
      | Some p => <["key"%string := SslPath p]> ssl_config
      | None => ssl_config
      end in
    let ssl_config := <["check_hostname"%string := SslFlag ssl_verify_identity]> ssl_config in
    <["verify_mode"%string := SslFlag ssl_verify_cert]> ssl_config.

(** The keyword arguments [_create_connection] passes to
    [pymysql.connect]. *)
Definition connect_config (self : adapter) : gmap string connect_value :=
  let config : gmap string connect_value :=
    <["autocommit"%string := ConnBool true]>
      (<["charset"%string := ConnStr "utf8mb4"]>
         (<["database"%string := ConnStr (database self)]>
            (<["password"%string := ConnStr (password self)]>
               (<["user"%string := ConnStr (user self)]>
                  (<["port"%string := ConnInt (port self)]>
                     (<["host"%string := ConnStr (host self)]> ∅)))))) in
  if decide (ssl_config self = ∅) then config
  else <["ssl"%string := ConnSsl (ssl_config self)]> config.

(** [pymysql.connect] with these keyword arguments, then
    [self.conn.cursor()]. *)
Definition _create_connection (self : adapter) : S unit := λ s,
  if accepts (connect_config self)
  then (Returned (),
        Server (schema s) (tables s) [] (drawn s) (connected s ++ [connect_config self]))
  else (RaisedOperationalError, s).

(** The statements of [create_col] and [delete_col], with the text spliced
    between the backticks. *)
Inductive admin_stmt :=
| CREATE_TABLE_IF_NOT_EXISTS (name : string)
| DROP_TABLE_IF_EXISTS (name : string).

Definition bigint (v : option Z) : sqlval num :=
  match v with
  | Some z => SqlInt z
  | None => SqlNull
  end.

Definition with_tables (s : server) (t : gmap string (list (row num)))
    (fetched : list (list (sqlval num))) : server :=
  Server (schema s) t fetched (drawn s) (connected s).

(** [cursor.execute("SHOW TABLES")]: one row for every table of the
    database, in the order of [elements]. *)
Definition execute_show_tables : S unit := λ s,
  (Returned (),
   with_tables s (tables s) ((λ name, [SqlString name]) <$> elements (dom (tables s)))).

(** [cursor.execute] on the statements of [create_col] and [delete_col]. *)
Definition execute_admin (q : admin_stmt) : S unit := λ s,
  match q with
  | CREATE_TABLE_IF_NOT_EXISTS name =>
      match quoted_identifier name with
      | None => (Raised ProgrammingError, s)
      | Some table =>
          match tables s !! table with
          | Some _ => (Returned (), with_tables s (tables s) [])
          | None => (Returned (), with_tables s (<[table := []]> (tables s)) [])
          end
      end
  | DROP_TABLE_IF_EXISTS name =>
      match quoted_identifier name with
      | None => (Raised ProgrammingError, s)
      | Some table => (Returned (), with_tables s (delete table (tables s)) [])
      end
  end.

(** [cursor.execute] on the statement of [col_info],
    [SELECT TABLE_NAME, TABLE_ROWS, DATA_LENGTH, INDEX_LENGTH
     FROM information_schema.TABLES WHERE TABLE_SCHEMA = %s AND TABLE_NAME = %s],
    with its two parameters. *)
Definition execute_table_info (args : list (sqlval num)) : S unit := λ s,
  match args with
  | [SqlString table_schema; SqlString table_name] =>
      let found :=
        if decide (table_schema = schema s) then
          match tables s !! table_name with
          | Some rows =>
              let '(table_rows, data_length, index_length) :=
                table_statistics table_name rows in
              [[SqlString table_name; bigint table_rows; bigint data_length;
                bigint index_length]]
          | None => []
          end
        else [] in
      (Returned (), with_tables s (tables s) found)
  | [_; _] => (Returned (), with_tables s (tables s) [])
  | _ => (Raised TypeError, s)
  end.

Definition server_fetchall : S (list (list (sqlval num))) := λ s,
  (Returned (result_set s), with_tables s (tables s) []).

Definition server_fetchone : S (option (list (sqlval num))) := λ s,
  match result_set s with
  | [] => (Returned None, s)
  | r :: rest => (Returned (Some r), with_tables s (tables s) rest)
  end.

Definition create_col (self : adapter) (vector_size : Z) (distance : string) : S unit :=
  execute_admin (CREATE_TABLE_IF_NOT_EXISTS (collection_name self)).

Definition list_cols (self : adapter) : S (list (sqlval num)) :=
  _ ← execute_show_tables;
  rows ← server_fetchall;
  lift_result (mapM_result (λ row, getitem row 0) rows).

Definition delete_col (self : adapter) : S unit :=
  execute_admin (DROP_TABLE_IF_EXISTS (collection_name self)).

(** [x or 0] *)
Definition or_zero (x : sqlval num) : sqlval num :=
  if truthy x then x else SqlInt 0.

(** [a + b] on the catalog's integers. *)
Definition py_add (a b : sqlval num) : result (sqlval num) :=
  match a, b with
  | SqlInt x, SqlInt y => Ok (SqlInt (x + y))
  | _, _ => Err TypeError
  end.

Definition col_info (self : adapter) : S (list (string * sqlval num)) :=
  _ ← execute_table_info [SqlString (database self); SqlString (collection_name self)];
  result ← server_fetchone;
  match result with
  | None => mret []
  | Some result =>
      name ← lift_result (getitem result 0);
      table_rows ← lift_result (getitem result 1);
      data_length ← lift_result (getitem result 2);
      index_length ← lift_result (getitem result 3);
      total_size ← lift_result (py_add (or_zero data_length) (or_zero index_length));
      mret [("name"%string, name);
            ("count"%string, or_zero table_rows);
            ("data_size"%string, or_zero data_length);
            ("index_size"%string, or_zero index_length);
            ("total_size"%string, total_size)]
  end.

Definition reset (self : adapter) : S unit :=
  _ ← delete_col self;
  create_col self (embedding_model_dims self) "cosine".

(** [collection_name in collections] *)
Definition contains_name (collections : list (sqlval num)) (name : string) : bool :=
  existsb (λ c, match c with SqlString t => bool_decide (t = name) | _ => false end)
          collections.

Definition __init__ (host : string) (port : Z) (user password database : string)
    (collection_name : string) (embedding_model_dims : Z) (ssl_disabled : bool)
    (ssl_ca ssl_cert ssl_key : option string) (ssl_verify_cert ssl_verify_identity : bool)
  : S adapter :=
  let self :=
    Adapter host port user password database collection_name embedding_model_dims
      (build_ssl_config ssl_disabled ssl_ca ssl_cert ssl_key
         ssl_verify_cert ssl_verify_identity) in
  _ ← _create_connection self;
  collections ← list_cols self;
  if contains_name collections collection_name then mret self
  else _ ← create_col self embedding_model_dims "cosine"; mret self.

(** What the adapter and the driver raise before a statement is sent:
    the errors of building the parameters and of formatting the text. *)
Definition raised_before_sending (e : error) : bool :=
  match e with
  | TypeError | IndexError | OutsideModel => true
  | _ => false
  end.

(** A data operation whose statement the server refuses. The statement is
    built and formatted before it is sent, so what is raised there comes
    first; the model finds it by running the operation on an empty table,
    where nothing else raises those errors. *)
Definition refused {A} (m : M A) : S A := λ s,
  match m (World [] (result_set s) (drawn s)) with
  | Err e =>
      if raised_before_sending e then (Raised e, s) else (Raised ProgrammingError, s)
  | Ok _ => (Raised ProgrammingError, s)
  end.

(** A data operation of the adapter, one that sends a statement whatever
    its arguments ([search], [get], [list], [delete]), on the table that
    [self.collection_name] names: the engine refuses it when the name is not
    one, and when there is no such table. These statements go through the
    driver's formatting, the name with them (those of [create_col] and
    [delete_col], sent without parameters, do not): a name with a [%] in it
    makes the text another one, and the embedding stops. *)
Definition on_collection {A} (self : adapter) (m : M A) : S A := λ s,
  if has_percent (collection_name self) then (Raised OutsideModel, s) else
  match quoted_identifier (collection_name self) with
  | None => refused m s
  | Some table =>
      match tables s !! table with
      | None => refused m s
      | Some rows =>
          match m (World rows (result_set s) (drawn s)) with
          | Ok (a, w) =>
              (Returned a,
               Server (schema s) (<[table := db_rows w]> (tables s))
                      (cur_rows w) (uuid_drawn w) (connected s))
          | Err e => (Raised e, s)
          end
      end
  end.
End Lifecycle.
End Instance.

(** ** Rows of a batch

    The rows [insert] adds when it is given ids and payloads: the [i]-th
    vector under the [i]-th id with the [i]-th payload. *)
Section Batch.
Context {num : Type} `{!FloatModel num}.

Definition given_rows (ids : list string) (payloads : list (list (string * json num)))
    (vectors : list (list num)) : list (row num) :=
  imap (λ i vector,
          Row (ids !!! i) (TiDB.vector_value vector) (Some (JObj (payloads !!! i))))
       vectors.

(** The identifier and the payload of a returned record. *)
Definition id_and_payload (o : OutputData.t num)
  : option string * option (list (string * json num)) :=
  (OutputData.id o, OutputData.payload o).
End Batch.

(** A server for running the lifecycle: it takes every connection, its
    catalog counts the rows and reports one page of data and no index
    size, and it reads a text of 1 to 64 characters without a backtick, put
    between backticks, as the table of that name. *)
Module DemoServer.
Definition accepts (config : gmap string connect_value) : bool := true.

Definition quoted_identifier (name : string) : option string :=
  if (String.eqb name ""
      || existsb (Ascii.eqb "`") (String.list_ascii_of_string name)
      || (64 <? String.length name)%nat)%bool
  then None else Some name.

Definition statistics (name : string) (rows : list (row Z)) : option Z * option Z * option Z :=
  (Some (Z.of_nat (length rows)), Some 16384, None).

Definition server0 : Instance.server (num := Z) :=
  Instance.Server "mem0db"
    (<["mem0"%string := Demo.rows3]> (<["notes"%string := []]> ∅)) [] 0 [].

Definition self0 : Instance.adapter :=
  Instance.Adapter "127.0.0.1" 4000 "root" "secret" "mem0db" "mem0" 1536
    (Instance.build_ssl_config false (Some "/etc/ca.pem"%string) (Some ""%string) None
       true false).
End DemoServer.

(** * Properties *)

(** ** The result monad on lists *)

Lemma mapM_result_ok {A B} (f : A → result B) (g : A → B) (l : list A) :
  Forall (λ x, f x = Ok (g x)) l → mapM_result f l = Ok (g <$> l).
Proof.
  induction 1 as [|x l Hx _ IH]; [done|].
  simpl. rewrite Hx. simpl. by rewrite IH.
Qed.

Lemma filterM_result_ok {A} (f : A → result bool) (g : A → bool) (l : list A) :
  (∀ x, f x = Ok (g x)) → filterM_result f l = Ok (filter (λ x, g x) l).
Proof.
  intros Hf. induction l as [|x l IH]; [done|].
  simpl. rewrite Hf. simpl. rewrite IH. simpl.
  rewrite filter_cons. by destruct (g x).
Qed.

Lemma mapM_result_Forall2 {A B} (f : A → result B) (l : list A) (k : list B) :
  mapM_result f l = Ok k → Forall2 (λ x y, f x = Ok y) l k.
Proof.
  revert k. induction l as [|x l IH]; intros k; simpl.
  - intros [= <-]. constructor.
  - destruct (f x) as [y|] eqn:Hx; simpl; [|done].
    destruct (mapM_result f l) as [ys|]; simpl; [|done].
    intros [= <-]. constructor; auto.
Qed.

Lemma Forall_filter_keep {A} (P : A → Prop) (Q : A → Prop) `{∀ x, Decision (Q x)}
    (l : list A) :
  Forall P l → Forall P (filter Q l).
Proof.
  intros Hl. apply Forall_forall. intros x [_ Hx]%list_elem_of_filter.
  by eapply Forall_forall in Hl.
Qed.

Lemma mapM_result_fmap {A B C} (f : B → result C) (g : A → B) (l : list A) :
  mapM_result f (g <$> l) = mapM_result (f ∘ g) l.
Proof. induction l as [|x l IH]; [done|]. csimpl. by rewrite IH. Qed.

(** ** What the engine does with the adapter's statements *)
Section EngineFacts.
Context {num : Type} `{!FloatModel num}.
Variable VEC_COSINE_DISTANCE : json num → json num → num.

Implicit Types (r : row num) (items : list (string * scalar num)).

Lemma filter_clause_items filters :
  TiDB.filter_clause filters =
    ((λ kv, TiDB.filter_condition kv.1) <$> filter_items filters,
     (λ kv, SqlString (py_str kv.2)) <$> filter_items filters).
Proof. by destruct filters as [[|kv items]|]. Qed.

Lemma plain_path_key (key : string) :
  plain_key key → plain_path ("$." +:+ key) = true.
Proof.
  intros Hkey. change ("$." +:+ key) with (String "$" (String "." key)).
  cbn [plain_path]. by apply Is_true_true.
Qed.

Lemma bind_conditions items (rest : list (sqlval num)) :
  plain_keys items →
  bind_exprs ((λ kv, TiDB.filter_condition kv.1) <$> items)
             (((λ kv, SqlString (py_str kv.2)) <$> items) ++ rest)
  = Ok (bound_condition <$> items, rest).
Proof.
  induction 1 as [|kv items Hkey _ IH]; [done|].
  cbn [fmap list_fmap app bind_exprs bind_expr TiDB.filter_condition].
  rewrite plain_path_key by done.
  cbn [mbind result_bind]. rewrite IH. done.
Qed.

(** A key that is not plain stops the binding of the statement. *)
Lemma bind_conditions_outside items (args : list (sqlval num)) :
  ¬ plain_keys items →
  (length items ≤ length args)%nat →
  bind_exprs ((λ kv, TiDB.filter_condition kv.1) <$> items) args = Err OutsideModel.
Proof.
  revert args. induction items as [|kv items IH]; intros args Hbad Hlen.
  { destruct Hbad. constructor. }
  cbn [fmap list_fmap bind_exprs bind_expr TiDB.filter_condition].
  change ("$." +:+ kv.1) with (String "$" (String "." kv.1)). cbn [plain_path].
  destruct (plain_key kv.1) eqn:Hkey; [|done].
  destruct args as [|a args]; [cbn in Hlen; lia|].
  cbn [mbind result_bind]. rewrite IH; [done| |cbn in Hlen; lia].
  intros Hrest. apply Hbad. constructor; [by apply Is_true_true|done].
Qed.

Lemma sql_true_bool (b : bool) : sql_true (sql_bool (num := num) b) = b.
Proof. by destruct b. Qed.

Lemma eval_bound_condition r kv :
  plain_key kv.1 →
  ∃ v, eval_expr VEC_COSINE_DISTANCE r (bound_condition kv) = Ok v
       ∧ sql_true v = holds_string r kv.1 (py_str kv.2).
Proof.
  intros Hkey. unfold bound_condition, holds_string.
  cbn [eval_expr]. unfold JSON_EXTRACT. rewrite plain_path_key by done.
  change ("$." +:+ kv.1) with (String "$" (String "." kv.1)). cbn.
  destruct (row_payload r) as [[v|l|m]|]; cbn; try (by eexists).
  destruct (dict_get kv.1 m) as [[[| | | |s]| |]|]; cbn; try (by eexists).
  eexists; split; [done|]. apply sql_true_bool.
Qed.

Lemma where_holds_bound r items :
  plain_keys items →
  where_holds VEC_COSINE_DISTANCE r (bound_condition <$> items) = Ok (selected items r).
Proof.
  induction 1 as [|kv items Hkey _ IH]; [done|].
  cbn [fmap list_fmap where_holds].
  destruct (eval_bound_condition r kv) as (v & -> & Hv); [done|].
  cbn [mbind result_bind]. rewrite IH. cbn. by rewrite Hv.
Qed.

Global Instance key_le_total : Total (key_le (num := num)).
Proof. intros a b. apply (total float_le). Qed.

Global Instance key_le_trans : Transitive (key_le (num := num)).
Proof. intros a b c. apply (transitivity (R := float_le)). Qed.

Lemma apply_limit_literal {A} (n : Z) (rows : list A) :
  0 ≤ n →
  apply_limit (num := num) (Some (ELit (SqlInt n))) rows = Ok (take (Z.to_nat n) rows).
Proof. intros Hn. unfold apply_limit. case_decide; [lia|done]. Qed.

(** A SELECT without ORDER BY in the model: the selected rows as the table
    lists them, then the limit. *)
Lemma exec_select_plain cols (tuple : row num → list (sqlval num)) items limit rows :
  plain_keys items →
  (∀ r, mapM_result (λ c, eval_expr VEC_COSINE_DISTANCE r c.1) cols = Ok (tuple r)) →
  exec_select VEC_COSINE_DISTANCE cols (bound_condition <$> items) None limit rows
  = apply_limit limit (tuple <$> filter (λ r, selected items r) rows).
Proof.
  intros Hkeys Htuple. unfold exec_select.
  rewrite (filterM_result_ok _ (selected items)) by (intros; by apply where_holds_bound).
  cbn [mbind result_bind].
  rewrite (mapM_result_ok _ tuple) by (apply Forall_forall; auto).
  done.
Qed.

(** A SELECT with ORDER BY on a DOUBLE column: the selected rows sorted by
    that column, then the limit. *)
Lemma exec_select_ordered cols a i (tuple : row num → list (sqlval num))
    (key : row num → num) items limit rows :
  plain_keys items →
  (∀ r, mapM_result (λ c, eval_expr VEC_COSINE_DISTANCE r c.1) cols = Ok (tuple r)) →
  alias_index a cols = Some i →
  (∀ r, order_key i (tuple r) = Ok (key r, tuple r)) →
  exec_select VEC_COSINE_DISTANCE cols (bound_condition <$> items) (Some a) limit rows
  = apply_limit limit
      ((merge_sort key_le
          ((λ r, (key r, tuple r)) <$> filter (λ r, selected items r) rows)).*2).
Proof.
  intros Hkeys Htuple Ha Hkey. unfold exec_select.
  rewrite (filterM_result_ok _ (selected items)) by (intros; by apply where_holds_bound).
  cbn [mbind result_bind].
  rewrite (mapM_result_ok _ tuple) by (apply Forall_forall; auto).
  cbn [mbind result_bind order_rows]. rewrite Ha.
  rewrite mapM_result_fmap.
  rewrite (mapM_result_ok _ (λ r, (key r, tuple r))) by (apply Forall_forall; intros; apply Hkey).
  done.
Qed.

(** A SELECT changes neither the table nor the count of drawn UUIDs. *)
Lemma execute_select_frame cols where_ order_by limit (args : list (sqlval num))
    (w w' : world num) :
  execute VEC_COSINE_DISTANCE (SELECT cols where_ order_by limit) args w = Ok ((), w') →
  db_rows w' = db_rows w ∧ uuid_drawn w' = uuid_drawn w.
Proof.
  unfold execute, mogrify.
  destruct (bind_exprs cols.*1 args) as [[es args1]|]; [|done]. cbn [mbind result_bind].
  destruct (bind_exprs where_ args1) as [[where' args2]|]; [|done]. cbn [mbind result_bind].
  destruct (bind_opt limit args2) as [[limit' args3]|]; [|done]. cbn [mbind result_bind].
  destruct args3; [|done]. cbn [all_converted mbind result_bind].
  destruct (exec_select _ _ _ _ _ _) as [rows|]; [|done]. cbn [mbind result_bind].
  by intros [= <-].
Qed.
End EngineFacts.

(** ** What [search], [list] and [get] return *)
Section AdapterFacts.
Context {num : Type} `{!FloatModel num}.
Variable VEC_COSINE_DISTANCE : json num → json num → num.

Implicit Types (r : row num) (items : list (string * scalar num)) (w : world num).

Abbreviation dist_to := (distance_to VEC_COSINE_DISTANCE).
Abbreviation scored q := (λ r, row_output (Some (dist_to q r)) r).

Lemma mogrify_search items (q : list num) (limit : Z) :
  plain_keys items →
  mogrify (SELECT TiDB.search_columns ((λ kv, TiDB.filter_condition kv.1) <$> items)
             (Some "distance"%string) (Some EPlaceholder))
          (([json_dumps (TiDB.vector_value q)]
            ++ ((λ kv, SqlString (py_str kv.2)) <$> items)) ++ [SqlInt limit])
  = Ok (SELECT
          [(ECol "id", None);
           (EVecCosineDistance (EJsonExtract (ECol "vector") "$")
              (EJsonExtract (ELit (json_dumps (TiDB.vector_value q))) "$"),
            Some "distance"%string);
           (ECol "payload", None)]
          (bound_condition <$> items) (Some "distance"%string)
          (Some (ELit (SqlInt limit)))).
Proof.
  intros Hkeys. unfold mogrify. cbn -[bind_exprs].
  cbn [bind_exprs bind_expr plain_path mbind result_bind].
  rewrite bind_conditions by done. done.
Qed.

Lemma mogrify_list items (limit : Z) :
  plain_keys items →
  mogrify (SELECT TiDB.plain_columns ((λ kv, TiDB.filter_condition kv.1) <$> items)
             None (Some EPlaceholder))
          (((λ kv, SqlString (py_str kv.2)) <$> items) ++ [SqlInt limit])
  = Ok (SELECT TiDB.plain_columns (bound_condition <$> items) None
          (Some (ELit (SqlInt limit)))).
Proof.
  intros Hkeys. unfold mogrify. cbn -[bind_exprs].
  cbn [bind_exprs bind_expr mbind result_bind].
  rewrite bind_conditions by done. done.
Qed.

Lemma execute_search items (q : list num) (limit : Z) w :
  plain_keys items →
  execute VEC_COSINE_DISTANCE
    (SELECT TiDB.search_columns ((λ kv, TiDB.filter_condition kv.1) <$> items)
       (Some "distance"%string) (Some EPlaceholder))
    (([json_dumps (TiDB.vector_value q)]
      ++ ((λ kv, SqlString (py_str kv.2)) <$> items)) ++ [SqlInt limit]) w
  = (fetched ← apply_limit (num := num) (Some (ELit (SqlInt limit)))
       ((merge_sort key_le
           ((λ r, (dist_to q r, search_tuple VEC_COSINE_DISTANCE q r))
              <$> filter (λ r, selected items r) (db_rows w))).*2);
     Ok ((), World (db_rows w) fetched (uuid_drawn w))).
Proof.
  intros Hkeys. unfold execute. rewrite mogrify_search by done. cbn [mbind result_bind].
  by rewrite (exec_select_ordered _ _ "distance" 1%nat
                (search_tuple VEC_COSINE_DISTANCE q) (dist_to q)).
Qed.

Lemma execute_list items (limit : Z) w :
  plain_keys items →
  execute VEC_COSINE_DISTANCE
    (SELECT TiDB.plain_columns ((λ kv, TiDB.filter_condition kv.1) <$> items)
       None (Some EPlaceholder))
    (((λ kv, SqlString (py_str kv.2)) <$> items) ++ [SqlInt limit]) w
  = (fetched ← apply_limit (num := num) (Some (ELit (SqlInt limit)))
       (plain_tuple <$> filter (λ r, selected items r) (db_rows w));
     Ok ((), World (db_rows w) fetched (uuid_drawn w))).
Proof.
  intros Hkeys. unfold execute. rewrite mogrify_list by done. cbn [mbind result_bind].
  by rewrite (exec_select_plain _ _ plain_tuple).
Qed.

(** [search] and [list] leave the table as it is, whatever they are given. *)
Lemma search_frame (query : string) (q : list num) (limit : Z) filters outs w w' :
  TiDB.search VEC_COSINE_DISTANCE query q limit filters w = Ok (outs, w') →
  w' = settled w.
Proof.
  unfold TiDB.search. destruct (TiDB.filter_clause filters) as [conds params].
  unfold mbind at 1, M_bind.
  destruct (execute _ _ _ w) as [[[] w1]|] eqn:Hexecute; [|done].
  apply execute_select_frame in Hexecute as [Hrows Hdrawn].
  unfold mbind at 1, M_bind. cbn [fetchall]. unfold lift.
  destruct (mapM_result _ _); [|done]. intros [= _ <-].
  unfold settled. by rewrite Hrows, Hdrawn.
Qed.

Lemma list_frame filters (limit : Z) groups w w' :
  TiDB.list VEC_COSINE_DISTANCE filters limit w = Ok (groups, w') →
  w' = settled w.
Proof.
  unfold TiDB.list. destruct (TiDB.filter_clause filters) as [conds params].
  unfold mbind at 1, M_bind.
  destruct (execute _ _ _ w) as [[[] w1]|] eqn:Hexecute; [|done].
  apply execute_select_frame in Hexecute as [Hrows Hdrawn].
  unfold mbind at 1, M_bind. cbn [fetchall].
  unfold mbind at 1, M_bind, lift.
  destruct (mapM_result _ _); [|done]. intros [= _ <-].
  unfold settled. by rewrite Hrows, Hdrawn.
Qed.

(** With a key that is not plain the embedding stops in [mogrify]. *)
Lemma search_outside (query : string) (q : list num) (limit : Z) filters w :
  ¬ plain_keys (filter_items filters) →
  TiDB.search VEC_COSINE_DISTANCE query q limit filters w = Err OutsideModel.
Proof.
  intros Hbad. unfold TiDB.search. rewrite filter_clause_items.
  unfold mbind at 1, M_bind, execute, mogrify. cbn -[bind_exprs].
  cbn [bind_exprs bind_expr plain_path mbind result_bind].
  rewrite bind_conditions_outside; [done|done|].
  rewrite length_app, !length_fmap. lia.
Qed.

Lemma list_outside filters (limit : Z) w :
  ¬ plain_keys (filter_items filters) →
  TiDB.list VEC_COSINE_DISTANCE filters limit w = Err OutsideModel.
Proof.
  intros Hbad. unfold TiDB.list. rewrite filter_clause_items. cbn [app].
  unfold mbind at 1, M_bind, execute, mogrify. cbn -[bind_exprs].
  cbn [bind_exprs bind_expr mbind result_bind].
  rewrite bind_conditions_outside; [done|done|].
  rewrite length_app, !length_fmap. lia.
Qed.

(** LIMIT with a negative number is refused by the engine. *)
Lemma search_negative_limit (query : string) (q : list num) (limit : Z) filters w :
  plain_keys (filter_items filters) →
  limit < 0 →
  TiDB.search VEC_COSINE_DISTANCE query q limit filters w = Err ProgrammingError.
Proof.
  intros Hkeys Hlimit. unfold TiDB.search. rewrite filter_clause_items.
  unfold mbind at 1, M_bind. rewrite execute_search by done.
  unfold apply_limit. by rewrite decide_True.
Qed.

Lemma list_negative_limit filters (limit : Z) w :
  plain_keys (filter_items filters) →
  limit < 0 →
  TiDB.list VEC_COSINE_DISTANCE filters limit w = Err ProgrammingError.
Proof.
  intros Hkeys Hlimit. unfold TiDB.list. rewrite filter_clause_items.
  cbn [app]. unfold mbind at 1, M_bind. rewrite execute_list by done.
  unfold apply_limit. by rewrite decide_True.
Qed.

(** The result mapper on the tuples of a row whose payload is NULL or an
    object. *)
Lemma search_output_tuple (q : list num) r :
  payload_is_mapping r →
  TiDB.search_output (search_tuple VEC_COSINE_DISTANCE q r) = Ok (scored q r).
Proof.
  unfold payload_is_mapping, row_output, payload_mapping, search_tuple, payload_column.
  destruct r as [i v [[?|?|m]|]]; cbn; done.
Qed.

Lemma plain_output_tuple r :
  payload_is_mapping r →
  TiDB.plain_output (plain_tuple r) = Ok (row_output None r).
Proof.
  unfold payload_is_mapping, row_output, payload_mapping, plain_tuple, payload_column.
  destruct r as [i v [[?|?|m]|]]; cbn; done.
Qed.

(** A row that a filter entry keeps has an object as its payload. *)
Lemma selected_mapping items r :
  items ≠ [] → selected items r → payload_is_mapping r.
Proof.
  destruct items as [|kv items]; [done|]. intros _.
  unfold selected. cbn [forallb]. intros [Hkv _]%andb_True.
  unfold holds_string in Hkv. unfold payload_is_mapping.
  by destruct (row_payload r) as [[?|?|?]|].
Qed.

(** The rows the filters keep have payloads the result mapper takes, when
    the whole table has, and also when there is a filter entry. *)
Lemma kept_payloads items (rows : list (row num)) :
  (items = [] → Forall payload_is_mapping rows) →
  Forall payload_is_mapping (filter (λ r, selected items r) rows).
Proof.
  intros Hrows. destruct (decide (items = [])) as [Hnone|Hsome].
  - by apply Forall_filter_keep, Hrows.
  - apply Forall_forall. intros r [Hr _]%list_elem_of_filter.
    by eapply selected_mapping.
Qed.

(** [list] in the model: one inner sequence, holding the selected rows as
    the table lists them, cut at the limit. *)
Lemma list_result filters (limit : Z) w :
  0 ≤ limit →
  plain_keys (filter_items filters) →
  Forall payload_is_mapping
    (filter (λ r, selected (filter_items filters) r) (db_rows w)) →
  TiDB.list VEC_COSINE_DISTANCE filters limit w
  = Ok ([row_output None <$>
           take (Z.to_nat limit)
             (filter (λ r, selected (filter_items filters) r) (db_rows w))],
        settled w).
Proof.
  intros Hlimit Hkeys Hrows. unfold TiDB.list. rewrite filter_clause_items.
  cbn [app]. unfold mbind at 1, M_bind. rewrite execute_list by done.
  rewrite apply_limit_literal by done. cbn [mbind result_bind].
  unfold mbind at 1, M_bind. cbn [fetchall cur_rows db_rows uuid_drawn].
  unfold mbind at 1, M_bind, lift.
  rewrite <-fmap_take.
  rewrite mapM_result_fmap.
  rewrite (mapM_result_ok _ (row_output None)); [done|].
  apply Forall_forall. intros r Hr. apply plain_output_tuple.
  apply subseteq_take in Hr. by eapply Forall_forall in Hrows.
Qed.

(** [search]: the selected rows, sorted by their distance to the query
    vector, cut at the limit. [rs] is the order the engine's sort leaves. *)
Lemma search_result (query : string) (q : list num) (limit : Z) filters w :
  0 ≤ limit →
  plain_keys (filter_items filters) →
  Forall payload_is_mapping
    (filter (λ r, selected (filter_items filters) r) (db_rows w)) →
  ∃ rs,
    TiDB.search VEC_COSINE_DISTANCE query q limit filters w
      = Ok (scored q <$> take (Z.to_nat limit) rs, settled w)
    ∧ rs ≡ₚ filter (λ r, selected (filter_items filters) r) (db_rows w)
    ∧ StronglySorted (λ a b, float_le (dist_to q a) (dist_to q b)) rs.
Proof.
  intros Hlimit Hkeys Hrows.
  set (kept := filter (λ r, selected (filter_items filters) r) (db_rows w)) in *.
  set (keyed := λ r, (dist_to q r, search_tuple VEC_COSINE_DISTANCE q r)).
  pose proof (merge_sort_Permutation key_le (keyed <$> kept)) as Hperm.
  pose proof (StronglySorted_merge_sort key_le (keyed <$> kept)) as Hsorted.
  destruct (Permutation_map_inv keyed kept Hperm) as (rs & Hrs & Hkept).
  change (map keyed rs) with (keyed <$> rs) in Hrs.
  exists rs. split_and!.
  - unfold TiDB.search. rewrite filter_clause_items.
    unfold mbind at 1, M_bind. rewrite execute_search by done.
    rewrite apply_limit_literal by done. cbn [mbind result_bind].
    unfold mbind at 1, M_bind. cbn [fetchall cur_rows db_rows uuid_drawn].
    unfold lift. fold kept keyed. rewrite Hrs.
    rewrite <-list_fmap_compose, <-fmap_take, mapM_result_fmap.
    rewrite (mapM_result_ok _ (scored q)); [done|].
    apply Forall_forall. intros r Hr. apply search_output_tuple.
    apply subseteq_take in Hr. rewrite <-Hkept in Hr.
    by eapply Forall_forall in Hrows.
  - done.
  - rewrite Hrs in Hsorted. clear -Hsorted.
    induction rs as [|r rs IH]; [constructor|].
    rewrite fmap_cons in Hsorted.
    apply StronglySorted_inv in Hsorted as [Hrest Hhd].
    constructor; [by apply IH|].
    rewrite Forall_fmap in Hhd. exact Hhd.
Qed.

(** *** Statements keyed by [id] *)

Lemma where_by_id r (i : string) :
  where_holds VEC_COSINE_DISTANCE r [EEq (ECol "id") (ELit (SqlString i))]
  = Ok (bool_decide (row_id r = i)).
Proof. cbn. by destruct (bool_decide (row_id r = i)). Qed.

Lemma filter_unknown_id (i : string) (rows : list (row num)) :
  i ∉ row_id <$> rows → filter (λ r, bool_decide (row_id r = i)) rows = [].
Proof.
  intros Hi. induction rows as [|r rows IH]; [done|].
  rewrite fmap_cons, not_elem_of_cons in Hi. destruct Hi as [Hne Hi].
  rewrite filter_cons, IH by done.
  rewrite decide_False; [done|]. rewrite bool_decide_spec. congruence.
Qed.

Lemma get_result (i : string) w :
  TiDB.get VEC_COSINE_DISTANCE i w =
    match filter (λ r, bool_decide (row_id r = i)) (db_rows w) with
    | [] => Ok (None, settled w)
    | r :: rest =>
        out ← TiDB.plain_output (plain_tuple r);
        Ok (Some out, World (db_rows w) (plain_tuple <$> rest) (uuid_drawn w))
    end.
Proof.
  unfold TiDB.get, mbind at 1, M_bind, execute.
  cbn [mogrify TiDB.by_id TiDB.plain_columns fmap list_fmap bind_exprs bind_expr
       bind_opt all_converted mbind result_bind fst snd zip zip_with].
  unfold exec_select.
  rewrite (filterM_result_ok _ (λ r, bool_decide (row_id r = i)))
    by (intros; apply where_by_id).
  cbn [mbind result_bind].
  rewrite (mapM_result_ok _ plain_tuple) by (by apply Forall_forall).
  cbn [mbind result_bind order_rows apply_limit].
  destruct (filter _ (db_rows w)) as [|r rest]; [done|].
  unfold mbind, M_bind. cbn [fetchone cur_rows fmap list_fmap db_rows uuid_drawn].
  unfold lift. by destruct (TiDB.plain_output (plain_tuple r)).
Qed.

Lemma delete_result (i : string) w :
  TiDB.delete VEC_COSINE_DISTANCE i w =
    Ok ((), World (filter (λ r, negb (bool_decide (row_id r = i))) (db_rows w)) []
              (uuid_drawn w)).
Proof.
  unfold TiDB.delete, execute.
  cbn [mogrify TiDB.by_id bind_exprs bind_expr all_converted mbind result_bind].
  unfold exec_delete.
  rewrite (filterM_result_ok _ (λ r, negb (bool_decide (row_id r = i)))); [done|].
  intros r. by rewrite where_by_id.
Qed.

Lemma update_rows (i : string) vector payload sets (rows : list (row num)) :
  (∀ r, assign VEC_COSINE_DISTANCE r sets r = Ok (rewritten vector payload r)) →
  exec_update VEC_COSINE_DISTANCE sets [EEq (ECol "id") (ELit (SqlString i))] rows
  = Ok ((λ r, if bool_decide (row_id r = i) then rewritten vector payload r else r)
          <$> rows).
Proof.
  intros Hassign. unfold exec_update. apply mapM_result_ok, Forall_forall.
  intros r _. rewrite where_by_id. cbn [mbind result_bind].
  by destruct (bool_decide (row_id r = i)).
Qed.

Lemma update_result (i : string) vector payload w :
  TiDB.update VEC_COSINE_DISTANCE i vector payload w =
    match vector, payload with
    | None, None => Ok ((), w)
    | _, _ =>
        Ok ((), World ((λ r, if bool_decide (row_id r = i)
                             then rewritten vector payload r else r) <$> db_rows w)
                  [] (uuid_drawn w))
    end.
Proof.
  unfold TiDB.update.
  destruct vector as [v|], payload as [p|]; [| | |done];
    unfold execute;
    cbn [app mogrify TiDB.by_id fmap list_fmap bind_exprs bind_expr all_converted
         mbind result_bind fst snd zip zip_with];
    by erewrite update_rows.
Qed.

(** *** INSERT *)

Lemma values_row_insert (i : string) (vector payload : json num) :
  values_row VEC_COSINE_DISTANCE TiDB.insert_sql
    [SqlString i; json_dumps vector; json_dumps payload]
  = if decide (String.length i ≤ 36)%nat
    then Ok (Row i vector (Some payload)) else Err DataError.
Proof.
  unfold values_row, TiDB.insert_sql, new_row.
  cbn [mogrify bind_exprs bind_expr all_converted mbind result_bind].
  rewrite decide_True by done.
  rewrite decide_True by (split; set_solver).
  cbn. by case_decide.
Qed.

(** The data tuples [insert] builds, whatever ids and payloads it runs
    with. *)
Lemma insert_data_shape (ids : list string) (payloads : list (list (string * json num)))
    (pairs : list (nat * list num)) data :
  mapM_result (λ '(i, vector),
      id ← TiDB.item ids i;
      payload ← TiDB.item payloads i;
      Ok [SqlString id; json_dumps (TiDB.vector_value vector); json_dumps (JObj payload)])
    pairs = Ok data →
  Forall (λ args, ∃ id vector payload,
            args = [SqlString id; json_dumps vector; json_dumps (JObj payload)]) data.
Proof.
  intros Hdata%mapM_result_Forall2.
  induction Hdata as [|[i v] args pairs data Hargs _ IH]; constructor; [|done].
  destruct (TiDB.item ids i) as [id|]; [|done].
  destruct (TiDB.item payloads i) as [p|]; [|done].
  cbn in Hargs. injection Hargs as <-. eauto.
Qed.

Lemma executemany_insert data w w' :
  Forall (λ args, ∃ id vector payload,
            args = [SqlString id; json_dumps vector; json_dumps (JObj payload)]) data →
  executemany VEC_COSINE_DISTANCE TiDB.insert_sql data w = Ok ((), w') →
  ∃ new, db_rows w' = db_rows w ++ new
         ∧ (NoDup (row_id <$> db_rows w) → NoDup (row_id <$> db_rows w'))
         ∧ Forall (λ r, ∃ p, row_payload r = Some (JObj p)) new.
Proof.
  intros Hshape. unfold executemany. destruct data as [|args0 data0] eqn:Hd.
  { intros [= <-]. exists []. by rewrite app_nil_r. }
  rewrite <-Hd in *. clear Hd.
  destruct (mapM_result _ data) as [new|] eqn:Hnew; [|done].
  cbn [mbind result_bind]. unfold check_primary_key. case_decide; [|done].
  cbn [mbind result_bind]. intros [= <-]. exists new. split_and!; [done..|].
  apply mapM_result_Forall2 in Hnew. clear -Hnew Hshape.
  induction Hnew as [|args r data new Hr _ IH]; [constructor|].
  apply Forall_cons in Hshape as [(id & v & p & ->) Hshape].
  constructor; [|by apply IH].
  rewrite values_row_insert in Hr. case_decide; [|done].
  injection Hr as <-. eauto.
Qed.

Variable uuid4 : nat → string.

Lemma insert_adds vectors payloads ids w w' :
  TiDB.insert VEC_COSINE_DISTANCE uuid4 vectors payloads ids w = Ok ((), w') →
  ∃ new, db_rows w' = db_rows w ++ new
         ∧ (NoDup (row_id <$> db_rows w) → NoDup (row_id <$> db_rows w'))
         ∧ Forall (λ r, ∃ p, row_payload r = Some (JObj p)) new.
Proof.
  unfold TiDB.insert. destruct vectors as [|v0 vs] eqn:Hv.
  { intros [= <-]. exists []. by rewrite app_nil_r. }
  rewrite <-Hv. clear Hv. unfold mbind at 1, M_bind.
  set (w1 := match ids with
             | Some _ => w
             | None => World (db_rows w) (cur_rows w) (uuid_drawn w + length vectors)
             end).
  set (ids1 := match ids with
               | Some ids => ids
               | None => uuid4 <$> seq (uuid_drawn w) (length vectors)
               end).
  assert (match ids with
          | Some ids => mret ids
          | None => TiDB.fresh_ids uuid4 (length vectors)
          end w = Ok (ids1, w1)) as -> by (by destruct ids).
  assert (db_rows w1 = db_rows w) as <- by (by destruct ids).
  unfold mbind at 1, M_bind, lift.
  destruct (mapM_result _ (imap pair vectors)) as [data|] eqn:Hdata; [|done].
  apply insert_data_shape in Hdata. by apply executemany_insert.
Qed.

Lemma insert_vectors_only vectors w :
  vectors ≠ [] →
  NoDup (row_id <$> db_rows w ++ default_rows uuid4 (uuid_drawn w) vectors) →
  Forall (λ r, String.length (row_id r) ≤ 36)%nat
         (default_rows uuid4 (uuid_drawn w) vectors) →
  TiDB.insert VEC_COSINE_DISTANCE uuid4 vectors None None w
  = Ok ((), World (db_rows w ++ default_rows uuid4 (uuid_drawn w) vectors) []
              (uuid_drawn w + length vectors)).
Proof.
  intros Hne Hnodup Hlen. unfold TiDB.insert.
  destruct vectors as [|v0 vs] eqn:Hv; [done|]. rewrite <-Hv in *. clear Hne.
  unfold mbind at 1, M_bind. cbn [TiDB.fresh_ids].
  unfold mbind at 1, M_bind, lift.
  rewrite (mapM_result_ok _ (λ iv : nat * list num,
             [SqlString (uuid4 (uuid_drawn w + iv.1)%nat);
              json_dumps (TiDB.vector_value iv.2); json_dumps (JObj [])])).
  2:{ apply Forall_forall. intros [i v] (j & y & [= -> ->] & Hj)%elem_of_lookup_imap.
      apply lookup_lt_Some in Hj. unfold TiDB.item.
      rewrite list_lookup_fmap, lookup_seq_lt, lookup_replicate_2 by done. done. }
  unfold executemany.
  destruct ((_ <$> imap pair vectors)) as [|a0 data0] eqn:Hdata.
  { rewrite Hv in Hdata. done. }
  rewrite <-Hdata. clear Hdata.
  rewrite mapM_result_fmap.
  rewrite (mapM_result_ok _ (λ iv : nat * list num,
             Row (uuid4 (uuid_drawn w + iv.1)%nat) (TiDB.vector_value iv.2)
                 (Some (JObj [])))).
  2:{ apply Forall_forall. intros [i v] (j & y & [= -> ->] & Hj)%elem_of_lookup_imap.
      cbn [compose fst snd]. rewrite values_row_insert. rewrite decide_True; [done|].
      eapply Forall_forall in Hlen; [|by eapply (elem_of_lookup_imap_2 _ _ _ j)].
      done. }
  cbn [mbind result_bind]. rewrite fmap_imap. unfold check_primary_key.
  cbn [db_rows uuid_drawn].
  change (imap _ vectors) with (default_rows uuid4 (uuid_drawn w) vectors).
  by rewrite decide_True.
Qed.
End AdapterFacts.

(** * The claims *)
Section Claims.
Context {num : Type} `{!FloatModel num}.
Variable VEC_COSINE_DISTANCE : json num → json num → num.
Variable uuid4 : nat → string.

Implicit Types (r : row num) (w : world num) (q : list num)
  (filters : option (list (string * scalar num))).

(** Every state the adapter reaches keeps the payload column NULL or a
    JSON object. *)
Lemma reachable_payloads w :
  reachable VEC_COSINE_DISTANCE uuid4 w → Forall payload_is_mapping (db_rows w).
Proof.
  induction 1 as [drawn|c w w' _ IH Hrun]; [constructor|].
  destruct c as [vectors payloads ids|query q limit filters|i|i vector payload|i
                |filters limit]; cbn [run] in Hrun.
  - destruct (TiDB.insert _ _ _ _ _ w) as [[[] w1]|] eqn:Hins; [|done].
    injection Hrun as ->. apply insert_adds in Hins as (new & -> & _ & Hnew).
    apply Forall_app. split; [done|].
    eapply Forall_impl; [done|]. intros r [p Hp].
    unfold payload_is_mapping. by rewrite Hp.
  - destruct (TiDB.search _ _ _ _ _ w) as [[outs w1]|] eqn:Hsearch; [|done].
    injection Hrun as <-. by apply search_frame in Hsearch as ->.
  - rewrite delete_result in Hrun. injection Hrun as <-.
    by apply Forall_filter_keep.
  - rewrite update_result in Hrun.
    destruct vector as [v|], payload as [p|]; injection Hrun as <-; [..|done];
      cbn [db_rows]; apply Forall_fmap; (eapply Forall_impl; [done|]);
      intros r Hr; cbn [compose]; case_bool_decide; done.
  - rewrite get_result in Hrun.
    destruct (filter _ (db_rows w)) as [|r rest]; [by injection Hrun as <-|].
    destruct (TiDB.plain_output _) as [out|]; [|done]. by injection Hrun as <-.
  - destruct (TiDB.list _ _ _ w) as [[groups w1]|] eqn:Hlist; [|done].
    injection Hrun as <-. by apply list_frame in Hlist as ->.
Qed.

(** Every state the adapter reaches keeps the identifiers distinct. *)
Lemma reachable_primary_key w :
  reachable VEC_COSINE_DISTANCE uuid4 w → NoDup (row_id <$> db_rows w).
Proof.
  induction 1 as [drawn|c w w' Hreach IH Hrun]; [constructor|].
  destruct c as [vectors payloads ids|query q limit filters|i|i vector payload|i
                |filters limit]; cbn [run] in Hrun.
  - destruct (TiDB.insert _ _ _ _ _ w) as [[[] w1]|] eqn:Hins; [|done].
    injection Hrun as ->. apply insert_adds in Hins as (new & _ & Hkey & _). auto.
  - destruct (TiDB.search _ _ _ _ _ w) as [[outs w1]|] eqn:Hsearch; [|done].
    injection Hrun as <-. by apply search_frame in Hsearch as ->.
  - rewrite delete_result in Hrun. injection Hrun as <-. cbn [db_rows].
    eapply sublist_NoDup; [done|]. apply fmap_sublist, sublist_filter.
  - rewrite update_result in Hrun.
    destruct vector as [v|], payload as [p|]; injection Hrun as <-; [..|done];
      cbn [db_rows]; rewrite <-list_fmap_compose;
      (erewrite list_fmap_ext; [done|]);
      intros ? r _; cbn [compose]; by case_bool_decide.
  - rewrite get_result in Hrun.
    destruct (filter _ (db_rows w)) as [|r rest]; [by injection Hrun as <-|].
    destruct (TiDB.plain_output _) as [out|]; [|done]. by injection Hrun as <-.
  - destruct (TiDB.list _ _ _ w) as [[groups w1]|] eqn:Hlist; [|done].
    injection Hrun as <-. by apply list_frame in Hlist as ->.
Qed.

(** C1. For every query vector, every positive limit and every filter
    mapping, present or not, whose keys are plain member names (the
    caller's contract for keys), [search] returns the first [limit] records
    of the rows the filters keep, put in ascending order of their distance
    to the query vector: at most [limit] records, closest first, and the
    score of each is the distance the engine computes between the stored
    vector of its row and the query vector. The table is one the adapter
    writes: payloads NULL or objects. *)
Theorem search_nearest_first (query : string) q (limit : Z) filters w :
  0 < limit →
  plain_keys (filter_items filters) →
  Forall payload_is_mapping (db_rows w) →
  ∃ rs outs,
    TiDB.search VEC_COSINE_DISTANCE query q limit filters w = Ok (outs, settled w)
    ∧ outs = (λ r, OutputData.mk (Some (row_id r))
                     (Some (VEC_COSINE_DISTANCE (row_vector r) (TiDB.vector_value q)))
                     (Some (payload_mapping r)))
               <$> take (Z.to_nat limit) rs
    ∧ rs ≡ₚ filter (λ r, selected (filter_items filters) r) (db_rows w)
    ∧ StronglySorted
        (λ a b, float_le (VEC_COSINE_DISTANCE (row_vector a) (TiDB.vector_value q))
                         (VEC_COSINE_DISTANCE (row_vector b) (TiDB.vector_value q))) rs
    ∧ (length outs ≤ Z.to_nat limit)%nat
    ∧ (∃ ds, OutputData.score <$> outs = Some <$> ds ∧ StronglySorted float_le ds).
Proof.
  intros Hlimit Hkeys Hrows.
  destruct (search_result VEC_COSINE_DISTANCE query q limit filters w)
    as (rs & Hsearch & Hperm & Hsorted); [lia|done|by apply Forall_filter_keep|].
  exists rs. eexists. split_and!; [exact Hsearch|done|done|done|..].
  - rewrite length_fmap, length_take. lia.
  - exists (distance_to VEC_COSINE_DISTANCE q <$> take (Z.to_nat limit) rs). split.
    + by rewrite <-!list_fmap_compose.
    + apply (StronglySorted_fmap _ (λ a b, float_le (distance_to VEC_COSINE_DISTANCE q a)
                                              (distance_to VEC_COSINE_DISTANCE q b)));
        [done|].
      rewrite <-(take_drop (Z.to_nat limit) rs) in Hsorted.
      by apply StronglySorted_app_1_l in Hsorted.
Qed.

Lemma holds_string_has r (k s : string) :
  holds_string r k s ↔ payload_has r k (PyStr s).
Proof.
  unfold holds_string, payload_has. split.
  - destruct (row_payload r) as [[?|?|m]|]; try done.
    destruct (dict_get k m) as [[[| | | |s']| |]|] eqn:Hget; try done.
    intros ->%bool_decide_unpack. eauto.
  - intros (m & -> & ->). by apply bool_decide_pack.
Qed.

(** The WHERE clause keeps the rows that have, under every filter key, the
    JSON string of [str(value)]. *)
Lemma selected_keeps (items : list (string * scalar num)) r :
  selected items r ↔ keeps items r.
Proof.
  unfold selected, keeps. rewrite forallb_True, Forall_forall. split.
  - intros Hsel k v Hkv. apply holds_string_has. by apply (Hsel (k, v)).
  - intros Hkeeps [k v] Hkv. apply holds_string_has. by apply Hkeeps.
Qed.

(** With string values, that is the claim's reading. *)
Lemma keeps_satisfies (items : list (string * scalar num)) r :
  Forall (λ kv, ∃ s, kv.2 = PyStr s) items →
  keeps items r ↔ satisfies items r.
Proof.
  unfold keeps, satisfies. intros Hstr. split.
  - intros Hkeeps k v Hkv. eapply Forall_forall in Hstr as [s Hs]; [|done].
    cbn in Hs. subst v. by apply (Hkeeps k (PyStr s)).
  - intros Hsat k v Hkv. eapply Forall_forall in Hstr as [s Hs]; [|done].
    cbn in Hs. subst v. by apply Hsat.
Qed.

Lemma take_all_or_full {A} (n : nat) (l : list A) :
  take n l = l ∨ length (take n l) = n.
Proof.
  destruct (decide (length l ≤ n)%nat).
  - left. by apply take_ge.
  - right. rewrite length_take. lia.
Qed.

(** C2, amended. For every filter mapping whose keys are plain member names
    and every stored record set (with payloads NULL or objects when the
    mapping is empty or absent), [search] and [list] return, up to [limit]
    records, exactly the records whose payload has every filter key with
    the JSON string that spells [str(value)] of the filter's value, which
    for a string value is the value: each returned record is the record of
    such a row, the record of such a row is returned unless the result is
    already [limit] long, and there are as many records as such rows, or
    [limit]. A record without the key, or with any other value, is left out
    and no error is raised. *)
Theorem filters_keep_string_matches (query : string) q (limit : Z) filters w :
  0 ≤ limit →
  plain_keys (filter_items filters) →
  (filter_items filters = [] → Forall payload_is_mapping (db_rows w)) →
  ∃ found listed,
    TiDB.search VEC_COSINE_DISTANCE query q limit filters w = Ok (found, settled w)
    ∧ TiDB.list VEC_COSINE_DISTANCE filters limit w = Ok ([listed], settled w)
    ∧ (∀ o, o ∈ found →
         ∃ r, r ∈ db_rows w ∧ keeps (filter_items filters) r
              ∧ o = row_output (Some (distance_to VEC_COSINE_DISTANCE q r)) r)
    ∧ (∀ o, o ∈ listed →
         ∃ r, r ∈ db_rows w ∧ keeps (filter_items filters) r ∧ o = row_output None r)
    ∧ (∀ r, r ∈ db_rows w → keeps (filter_items filters) r →
         (row_output (Some (distance_to VEC_COSINE_DISTANCE q r)) r ∈ found
          ∨ length found = Z.to_nat limit)
         ∧ (row_output None r ∈ listed ∨ length listed = Z.to_nat limit))
    ∧ length found
      = (Z.to_nat limit
           `min` length (filter (λ r, selected (filter_items filters) r) (db_rows w)))%nat
    ∧ length listed = length found
    ∧ (∀ r, selected (filter_items filters) r ↔ keeps (filter_items filters) r)
    ∧ (Forall (λ kv, ∃ s, kv.2 = PyStr s) (filter_items filters) →
       ∀ r, keeps (filter_items filters) r ↔ satisfies (filter_items filters) r).
Proof.
  intros Hlimit Hkeys Hrows%kept_payloads.
  destruct (search_result VEC_COSINE_DISTANCE query q limit filters w)
    as (rs & Hsearch & Hperm & _); [done..|].
  do 2 eexists. split_and!; [exact Hsearch|by apply list_result|..].
  - intros o (r & -> & Hr)%list_elem_of_fmap. apply subseteq_take in Hr.
    rewrite Hperm in Hr. apply list_elem_of_filter in Hr as [Hsel Hr].
    exists r. split_and!; [done| |done]. by apply selected_keeps.
  - intros o (r & -> & Hr)%list_elem_of_fmap. apply subseteq_take in Hr.
    apply list_elem_of_filter in Hr as [Hsel Hr].
    exists r. split_and!; [done| |done]. by apply selected_keeps.
  - intros r Hr Hkeeps%selected_keeps.
    assert (r ∈ filter (λ r, selected (filter_items filters) r) (db_rows w)) as Hkept
      by by apply list_elem_of_filter.
    rewrite !length_fmap. split.
    + destruct (take_all_or_full (Z.to_nat limit) rs) as [->|?]; [left|by right].
      apply list_elem_of_fmap. exists r. split; [done|]. by rewrite Hperm.
    + destruct (take_all_or_full (Z.to_nat limit)
                  (filter (λ r, selected (filter_items filters) r) (db_rows w)))
        as [->|?]; [left|by right].
      apply list_elem_of_fmap. by exists r.
  - rewrite length_fmap, length_take. by rewrite (Permutation_length Hperm).
  - rewrite !length_fmap, !length_take. by rewrite (Permutation_length Hperm).
  - intros r. apply selected_keeps.
  - intros Hstr r. by apply keeps_satisfies.
Qed.

(** C3, amended. For every stored record set (with payloads NULL or objects
    when the mapping is empty or absent), every filter mapping, present or
    not, whose keys are plain member names, and every limit that is not
    negative, [list] returns a sequence of exactly one element, the inner
    sequence of records: one record, with no score, per stored row the
    filters keep, no row twice, at most [limit] of them, and all of them
    when they are no more than [limit]. *)
Theorem list_returns_one_group filters (limit : Z) w :
  0 ≤ limit →
  plain_keys (filter_items filters) →
  (filter_items filters = [] → Forall payload_is_mapping (db_rows w)) →
  ∃ rs,
    TiDB.list VEC_COSINE_DISTANCE filters limit w
    = Ok ([row_output None <$> rs], settled w)
    ∧ rs ⊆+ filter (λ r, selected (filter_items filters) r) (db_rows w)
    ∧ length rs
      = (Z.to_nat limit
           `min` length (filter (λ r, selected (filter_items filters) r) (db_rows w)))%nat
    ∧ ∀ r, selected (filter_items filters) r ↔ keeps (filter_items filters) r.
Proof.
  intros Hlimit Hkeys Hrows%kept_payloads.
  eexists. split_and!; [by apply list_result|..].
  - apply sublist_submseteq, sublist_take.
  - by rewrite length_take.
  - intros r. apply selected_keeps.
Qed.

Lemma default_rows_ids (drawn : nat) (vectors : list (list num)) :
  row_id <$> default_rows uuid4 drawn vectors = uuid4 <$> seq drawn (length vectors).
Proof. unfold default_rows. rewrite fmap_imap. apply (imap_seq vectors uuid4). Qed.

Lemma default_rows_vectors (drawn : nat) (vectors : list (list num)) :
  row_vector <$> default_rows uuid4 drawn vectors = TiDB.vector_value <$> vectors.
Proof. unfold default_rows. rewrite fmap_imap. apply (imap_const TiDB.vector_value). Qed.

(** C4. For every non-empty list of [n] vectors, [insert] with [ids] and
    [payloads] left out adds exactly [n] rows: their identifiers are the [n]
    freshly drawn UUIDs, pairwise distinct, and their payloads decode to the
    empty mapping. The UUID source is taken at its word: the [n] draws are
    36-character strings, distinct from each other and from the stored
    identifiers. *)
Theorem insert_defaults (vectors : list (list num)) w :
  vectors ≠ [] →
  NoDup (row_id <$> db_rows w) →
  NoDup (uuid4 <$> seq (uuid_drawn w) (length vectors)) →
  (∀ i, i ∈ uuid4 <$> seq (uuid_drawn w) (length vectors) → i ∉ row_id <$> db_rows w) →
  Forall (λ i, String.length i ≤ 36)%nat (uuid4 <$> seq (uuid_drawn w) (length vectors)) →
  ∃ new w',
    TiDB.insert VEC_COSINE_DISTANCE uuid4 vectors None None w = Ok ((), w')
    ∧ db_rows w' = db_rows w ++ new
    ∧ uuid_drawn w' = (uuid_drawn w + length vectors)%nat
    ∧ length new = length vectors
    ∧ row_id <$> new = uuid4 <$> seq (uuid_drawn w) (length vectors)
    ∧ NoDup (row_id <$> new)
    ∧ row_vector <$> new = TiDB.vector_value <$> vectors
    ∧ Forall (λ r, TiDB.decode_payload (payload_column r) = Ok (JObj [])) new.
Proof.
  intros Hne Hstored Hdistinct Hfresh Hlen.
  exists (default_rows uuid4 (uuid_drawn w) vectors). eexists.
  split_and!.
  - apply insert_vectors_only; [done|..].
    + rewrite fmap_app, default_rows_ids. apply NoDup_app. split_and!; [done| |done].
      intros i Hi Hi'. by apply (Hfresh i).
    + apply (Forall_fmap row_id (λ i, String.length i ≤ 36)%nat).
      by rewrite default_rows_ids.
  - done.
  - done.
  - unfold default_rows. by rewrite length_imap.
  - apply default_rows_ids.
  - by rewrite default_rows_ids.
  - apply default_rows_vectors.
  - apply Forall_forall. intros r (i & v & -> & _)%elem_of_lookup_imap. done.
Qed.

(** C5. For every identifier that no stored row has: [get] returns [None]
    and raises nothing; [update], whatever it is given, and [delete] return
    without an error and leave every stored row as it was. *)
Theorem unknown_id_is_no_error (vector_id : string) vector payload w :
  vector_id ∉ row_id <$> db_rows w →
  TiDB.get VEC_COSINE_DISTANCE vector_id w = Ok (None, settled w)
  ∧ (∃ w', TiDB.update VEC_COSINE_DISTANCE vector_id vector payload w = Ok ((), w')
           ∧ db_rows w' = db_rows w)
  ∧ (∃ w', TiDB.delete VEC_COSINE_DISTANCE vector_id w = Ok ((), w')
           ∧ db_rows w' = db_rows w).
Proof.
  intros Hunknown. split_and!.
  - rewrite get_result. by rewrite filter_unknown_id.
  - rewrite update_result.
    assert ((λ r, if bool_decide (row_id r = vector_id)
                  then rewritten vector payload r else r) <$> db_rows w = db_rows w)
      as Hsame.
    { rewrite <-(list_fmap_id (db_rows w)) at 2. apply list_fmap_ext.
      intros i r Hr. rewrite bool_decide_eq_false_2; [done|].
      intros <-. apply Hunknown, list_elem_of_fmap_2, list_elem_of_lookup_2 with i, Hr. }
    destruct vector, payload; (eexists; split; [done|]); cbn [db_rows]; by rewrite ?Hsame.
  - rewrite delete_result. eexists. split; [done|]. cbn [db_rows].
    clear -Hunknown. induction (db_rows w) as [|r rows IH]; [done|].
    rewrite fmap_cons, not_elem_of_cons in Hunknown. destruct Hunknown as [Hne ?].
    rewrite filter_cons, IH by done.
    rewrite decide_True; [done|]. rewrite bool_decide_eq_false_2; [done|congruence].
Qed.

(** C7. In every state the adapter reaches, no record that [search], [get]
    or [list] returns has a null payload, and the three return (for a limit
    that is not negative and filter keys that are plain member names); a
    row whose payload column is NULL is returned with the empty mapping. *)
Theorem output_payload_never_null w :
  reachable VEC_COSINE_DISTANCE uuid4 w →
  (∀ query q limit filters outs w',
     TiDB.search VEC_COSINE_DISTANCE query q limit filters w = Ok (outs, w') →
     Forall (λ o, is_Some (OutputData.payload o)) outs)
  ∧ (∀ vector_id out w',
       TiDB.get VEC_COSINE_DISTANCE vector_id w = Ok (Some out, w') →
       is_Some (OutputData.payload out))
  ∧ (∀ filters limit groups w',
       TiDB.list VEC_COSINE_DISTANCE filters limit w = Ok (groups, w') →
       Forall (Forall (λ o, is_Some (OutputData.payload o))) groups)
  ∧ (∀ query q limit filters, 0 ≤ limit → plain_keys (filter_items filters) →
       ∃ outs, TiDB.search VEC_COSINE_DISTANCE query q limit filters w
               = Ok (outs, settled w))
  ∧ (∀ vector_id, ∃ out w', TiDB.get VEC_COSINE_DISTANCE vector_id w = Ok (out, w'))
  ∧ (∀ filters limit, 0 ≤ limit → plain_keys (filter_items filters) →
       ∃ group, TiDB.list VEC_COSINE_DISTANCE filters limit w
                = Ok ([group], settled w))
  ∧ (∀ q r, row_payload r = None →
       TiDB.search_output (search_tuple VEC_COSINE_DISTANCE q r)
         = Ok (OutputData.mk (Some (row_id r))
                 (Some (distance_to VEC_COSINE_DISTANCE q r)) (Some []))
       ∧ TiDB.plain_output (plain_tuple r)
         = Ok (OutputData.mk (Some (row_id r)) None (Some []))).
Proof.
  intros Hrows%reachable_payloads. split_and!.
  - intros query q limit filters outs w' Hsearch.
    destruct (decide (plain_keys (filter_items filters))) as [Hkeys|Hbad];
      [|by rewrite search_outside in Hsearch].
    destruct (decide (0 ≤ limit)) as [Hlimit|Hlimit].
    + destruct (search_result VEC_COSINE_DISTANCE query q limit filters w)
        as (rs & Hrs & _); [done|done|by apply Forall_filter_keep|].
      rewrite Hrs in Hsearch. injection Hsearch as <- <-.
      apply Forall_fmap, Forall_true. by eexists.
    + rewrite search_negative_limit in Hsearch by (done || lia). done.
  - intros i out w' Hget. rewrite get_result in Hget.
    destruct (filter _ (db_rows w)) as [|r rest] eqn:Hfilter; [done|].
    assert (payload_is_mapping r) as Hr.
    { eapply Forall_forall in Hrows; [done|].
      eapply (proj1 (list_elem_of_filter _ _ r)).
      rewrite Hfilter. by left. }
    rewrite plain_output_tuple in Hget by done. cbn in Hget.
    injection Hget as <- <-. by eexists.
  - intros filters limit groups w' Hlist.
    destruct (decide (plain_keys (filter_items filters))) as [Hkeys|Hbad];
      [|by rewrite list_outside in Hlist].
    destruct (decide (0 ≤ limit)) as [Hlimit|Hlimit].
    + rewrite list_result in Hlist by (done || by apply Forall_filter_keep).
      injection Hlist as <- <-.
      constructor; [|done]. apply Forall_fmap, Forall_true. by eexists.
    + rewrite list_negative_limit in Hlist by (done || lia). done.
  - intros query q limit filters Hlimit Hkeys.
    destruct (search_result VEC_COSINE_DISTANCE query q limit filters w)
      as (rs & Hrs & _); [done|done|by apply Forall_filter_keep|]. eauto.
  - intros i. rewrite get_result.
    destruct (filter _ (db_rows w)) as [|r rest] eqn:Hfilter; [by eauto|].
    rewrite plain_output_tuple; [by eauto|].
    eapply Forall_forall in Hrows; [done|].
    eapply (proj1 (list_elem_of_filter _ _ r)). rewrite Hfilter. by left.
  - intros filters limit Hlimit Hkeys.
    rewrite list_result by (done || by apply Forall_filter_keep). eauto.
  - intros q [i v p] Hnull. cbn in Hnull. by subst p.
Qed.

(** C8. For every identifier, [update] with neither a vector nor a payload
    leaves the state as it is. With only a vector, the rows with that
    identifier get the vector and keep their payload; with only a payload,
    they get the payload and keep their vector; every other row is
    unchanged. *)
Theorem update_rewrites_only_what_is_given (vector_id : string) w :
  TiDB.update VEC_COSINE_DISTANCE vector_id None None w = Ok ((), w)
  ∧ (∀ vector, ∃ w',
       TiDB.update VEC_COSINE_DISTANCE vector_id (Some vector) None w = Ok ((), w')
       ∧ Forall2 (λ r r', row_id r' = row_id r
                    ∧ row_payload r' = row_payload r
                    ∧ (row_id r = vector_id → row_vector r' = TiDB.vector_value vector)
                    ∧ (row_id r ≠ vector_id → r' = r))
                 (db_rows w) (db_rows w'))
  ∧ (∀ payload, ∃ w',
       TiDB.update VEC_COSINE_DISTANCE vector_id None (Some payload) w = Ok ((), w')
       ∧ Forall2 (λ r r', row_id r' = row_id r
                    ∧ row_vector r' = row_vector r
                    ∧ (row_id r = vector_id → row_payload r' = Some (JObj payload))
                    ∧ (row_id r ≠ vector_id → r' = r))
                 (db_rows w) (db_rows w')).
Proof.
  split_and!.
  - by rewrite update_result.
  - intros vector. rewrite update_result. eexists. split; [done|].
    cbn [db_rows]. apply Forall2_fmap_r, Forall_Forall2_diag, Forall_true.
    intros r. cbn [compose]. case_bool_decide; done.
  - intros payload. rewrite update_result. eexists. split; [done|].
    cbn [db_rows]. apply Forall2_fmap_r, Forall_Forall2_diag, Forall_true.
    intros r. cbn [compose]. case_bool_decide; done.
Qed.

(** C10. [search] does not look at its [query] string: two calls that
    differ in it only return the same result and leave the same state. *)
Theorem search_ignores_query (query1 query2 : string) q (limit : Z) filters w :
  TiDB.search VEC_COSINE_DISTANCE query1 q limit filters w
  = TiDB.search VEC_COSINE_DISTANCE query2 q limit filters w.
Proof. reflexivity. Qed.
End Claims.

(** ** The configuration validators *)
Section ConfigClaims.
Context {num : Type} `{!FloatModel num}.
Variable coerce : TiDBConfig.annotation → json num → option (json num).

Implicit Types (values : gmap string (json num)).

Lemma check_required_fields_reads values :
  match TiDBConfig.check_required_fields values with
  | Ok v => v = values
            ∧ Forall (λ field, TiDBConfig.not_get values field = false)
                     TiDBConfig.required_fields
  | Err e => (∃ msg, e = ValueError msg)
             ∧ Exists (λ field, TiDBConfig.not_get values field = true)
                      TiDBConfig.required_fields
  end.
Proof.
  unfold TiDBConfig.check_required_fields, TiDBConfig.required_fields.
  rewrite !filter_cons, filter_nil.
  destruct (TiDBConfig.not_get values "host") eqn:Hhost;
    destruct (TiDBConfig.not_get values "user") eqn:Huser;
    destruct (TiDBConfig.not_get values "password") eqn:Hpassword;
    destruct (TiDBConfig.not_get values "database") eqn:Hdatabase;
    cbn; (split; [by eauto|]); rewrite ?Exists_cons, ?Forall_cons; auto 10.
Qed.

Lemma validate_extra_fields_reads values :
  match TiDBConfig.validate_extra_fields values with
  | Ok v => v = values ∧ ∀ k, is_Some (values !! k) → k ∈ TiDBConfig.model_fields
  | Err e => (∃ msg, e = ValueError msg)
             ∧ ∃ k, is_Some (values !! k) ∧ k ∉ TiDBConfig.model_fields
  end.
Proof.
  unfold TiDBConfig.validate_extra_fields. case_decide as Hextra.
  - split; [done|]. intros k Hk%elem_of_dom.
    apply (elem_of_list_to_set (C := gset string)).
    destruct (decide (k ∈@{gset string} list_to_set TiDBConfig.model_fields))
      as [|Hnot]; [done|].
    assert (k ∈ dom values ∖ list_to_set TiDBConfig.model_fields) as Hk'
      by by apply elem_of_difference.
    rewrite Hextra in Hk'. by apply not_elem_of_empty in Hk'.
  - split; [by eauto|].
    apply set_choose_L in Hextra as [k Hk]. exists k.
    apply elem_of_difference in Hk as [Hk%elem_of_dom Hnot].
    split; [done|]. by rewrite elem_of_list_to_set in Hnot.
Qed.

Lemma py_bool_false (v : json num) :
  py_bool v = false
  ↔ v = JScalar PyNone ∨ v = JScalar (PyBool false) ∨ v = JScalar (PyInt 0)
    ∨ (∃ x, v = JScalar (PyFloat x) ∧ float_nonzero x = false)
    ∨ v = JScalar (PyStr "") ∨ v = JArr [] ∨ v = JObj [].
Proof.
  split.
  - destruct v as [[|[]|z|x|s]|[|? ?]|[|? ?]]; cbn; try done; auto 10.
    + intros Hz%negb_false_iff%Z.eqb_eq. subst z. auto.
    + intros Hx. right. right. right. left. eauto.
    + intros Hs%negb_false_iff%String.eqb_eq. subst s. auto 10.
  - intros [->|[->|[->|[(x & -> & Hx)|[->|[->| ->]]]]]]; done.
Qed.

Lemma not_get_empty values (field : string) :
  TiDBConfig.not_get values field = true
  ↔ values !! field = None ∨ ∃ v, values !! field = Some v ∧ py_bool v = false.
Proof.
  unfold TiDBConfig.not_get. destruct (values !! field) as [v|].
  - rewrite negb_true_iff. split; [intros Hv; right; by exists v|].
    by intros [?|(v' & [= <-] & ?)].
  - split; [by left|done].
Qed.

(** What the validation of the fields reports: a given value that does not
    fit its annotation, or a field that is neither given nor has a
    default. *)
Lemma validate_fields_reads values :
  match TiDBConfig.validate_fields coerce values with
  | Ok config =>
      Forall2 (λ field entry,
                 entry.1 = field.1.1
                 ∧ match values !! field.1.1 with
                   | Some v => TiDBConfig.field_value coerce field.1.2 v = Some entry.2
                   | None => field.2 = Some entry.2
                   end)
              TiDBConfig.fields config
  | Err e =>
      e = ValidationError
      ∧ Exists (λ field,
                  match values !! field.1.1 with
                  | Some v => TiDBConfig.field_value coerce field.1.2 v = None
                  | None => field.2 = None
                  end)
               (TiDBConfig.fields (num := num))
  end.
Proof.
  unfold TiDBConfig.validate_fields.
  induction TiDBConfig.fields as [|[[name a] default] fields IH]; [constructor|].
  cbn [mapM_result TiDBConfig.field_result].
  destruct (values !! name) as [v|] eqn:Hv.
  - destruct (TiDBConfig.field_value coerce a v) as [v'|] eqn:Hfit; cbn [mbind result_bind].
    + destruct (mapM_result _ fields) as [config|e]; cbn [mbind result_bind].
      * constructor; [|done]. cbn. by rewrite Hv.
      * destruct IH as [-> IH]. split; [done|]. by apply Exists_cons_tl.
    + split; [done|]. apply Exists_cons_hd. cbn. by rewrite Hv.
  - destruct default as [d|]; cbn [mbind result_bind].
    + destruct (mapM_result _ fields) as [config|e]; cbn [mbind result_bind].
      * constructor; [|done]. cbn. by rewrite Hv.
      * destruct IH as [-> IH]. split; [done|]. by apply Exists_cons_tl.
    + split; [done|]. apply Exists_cons_hd. cbn. by rewrite Hv.
Qed.

(** C9, amended. Validation raises the configuration error exactly when a
    required field among [host], [user], [password], [database] is missing
    or empty (absent from the input, or holding a value Python counts as
    false), or the input has a field that is not declared, or a given value
    does not fit the annotation of its field; any other input is accepted,
    and gives the declared fields with the given values, validated, and the
    defaults of the others. Validation works on the input mapping alone:
    run against a server, a refused input raises with the server, its
    connections included, as it was. *)
Theorem validate_raises_iff values :
  let empty (v : json num) :=
    v = JScalar PyNone ∨ v = JScalar (PyBool false) ∨ v = JScalar (PyInt 0)
    ∨ (∃ x, v = JScalar (PyFloat x) ∧ float_nonzero x = false)
    ∨ v = JScalar (PyStr "") ∨ v = JArr [] ∨ v = JObj [] in
  let missing (field : string) :=
    values !! field = None ∨ ∃ v, values !! field = Some v ∧ empty v in
  let unknown :=
    ∃ k, is_Some (values !! k)
         ∧ k ∉ ["host"; "port"; "user"; "password"; "database"; "collection_name";
                "embedding_model_dims"; "ssl_disabled"; "ssl_ca"; "ssl_cert"; "ssl_key";
                "ssl_verify_cert"; "ssl_verify_identity"]%string in
  let misfit (field : string) (a : TiDBConfig.annotation) :=
    ∃ v, values !! field = Some v ∧ TiDBConfig.field_value coerce a v = None in
  let refused :=
    missing "host"%string ∨ missing "user"%string ∨ missing "password"%string
    ∨ missing "database"%string ∨ unknown
    ∨ misfit "host"%string TiDBConfig.AStr
    ∨ misfit "port"%string TiDBConfig.AInt
    ∨ misfit "user"%string TiDBConfig.AStr
    ∨ misfit "password"%string TiDBConfig.AStr
    ∨ misfit "database"%string TiDBConfig.AStr
    ∨ misfit "collection_name"%string TiDBConfig.AStr
    ∨ misfit "embedding_model_dims"%string (TiDBConfig.AOptional TiDBConfig.AInt)
    ∨ misfit "ssl_disabled"%string TiDBConfig.ABool
    ∨ misfit "ssl_ca"%string (TiDBConfig.AOptional TiDBConfig.AStr)
    ∨ misfit "ssl_cert"%string (TiDBConfig.AOptional TiDBConfig.AStr)
    ∨ misfit "ssl_key"%string (TiDBConfig.AOptional TiDBConfig.AStr)
    ∨ misfit "ssl_verify_cert"%string TiDBConfig.ABool
    ∨ misfit "ssl_verify_identity"%string TiDBConfig.ABool in
  (refused ↔ TiDBConfig.validate coerce values = Err ValidationError)
  ∧ (¬ refused
     ↔ ∃ config,
         TiDBConfig.validate coerce values = Ok config
         ∧ Forall2 (λ field entry,
                      entry.1 = field.1.1
                      ∧ match values !! field.1.1 with
                        | Some v =>
                            TiDBConfig.field_value coerce field.1.2 v = Some entry.2
                        | None => field.2 = Some entry.2
                        end)
                   TiDBConfig.fields config)
  ∧ (∀ s : Instance.server (num := num),
       refused →
       Instance.lift_result (TiDBConfig.validate coerce values) s
       = (Raised ValidationError, s)).
Proof.
  intros empty missing unknown misfit refused.
  assert (∀ field, TiDBConfig.not_get values field = true ↔ missing field) as Hmissing.
  { intros field. rewrite not_get_empty. unfold missing.
    by setoid_rewrite py_bool_false. }
  assert ((refused ↔ TiDBConfig.validate coerce values = Err ValidationError)
          ∧ (¬ refused
             ↔ ∃ config,
                 TiDBConfig.validate coerce values = Ok config
                 ∧ Forall2 (λ field entry,
                              entry.1 = field.1.1
                              ∧ match values !! field.1.1 with
                                | Some v =>
                                    TiDBConfig.field_value coerce field.1.2 v
                                    = Some entry.2
                                | None => field.2 = Some entry.2
                                end)
                           TiDBConfig.fields config)) as [Hraise Haccept].
  2:{ split_and!; [done..|]. intros s Hrefused%Hraise.
      unfold Instance.lift_result. by rewrite Hrefused. }
  unfold TiDBConfig.validate.
  pose proof (validate_extra_fields_reads values) as Hextra.
  pose proof (check_required_fields_reads values) as Hreq.
  pose proof (validate_fields_reads values) as Hfields.
  destruct (TiDBConfig.validate_extra_fields values) as [v|e]; cbn [mbind result_bind].
  2:{ destruct Hextra as [[msg ->] Hunknown].
      assert refused as Hrefused by (unfold refused; auto 10).
      split; [done|]. split; [done|]. by intros (config & ? & _). }
  destruct Hextra as [-> Hknown].
  destruct (TiDBConfig.check_required_fields values) as [v|e].
  2:{ destruct Hreq as [[msg ->] Hgone].
      assert refused as Hrefused.
      { unfold TiDBConfig.required_fields in Hgone.
        rewrite !Exists_cons, Exists_nil, !Hmissing in Hgone.
        unfold refused. tauto. }
      split; [done|]. split; [done|]. by intros (config & ? & _). }
  destruct Hreq as [-> Hpresent].
  unfold TiDBConfig.required_fields in Hpresent.
  rewrite !Forall_cons in Hpresent.
  destruct Hpresent as (Hhost & Huser & Hpassword & Hdatabase & _).
  assert (∀ field, TiDBConfig.not_get values field = false → ¬ missing field) as Hgiven.
  { intros field Hfalse Hgone%Hmissing. congruence. }
  apply Hgiven in Hhost, Huser, Hpassword, Hdatabase.
  assert (¬ unknown) as Hnone by (intros (k & Hk & Hnot); by apply Hnot, Hknown).
  destruct (TiDBConfig.validate_fields coerce values) as [config|e].
  - assert (¬ refused) as Hfine.
    { unfold TiDBConfig.fields in Hfields.
      repeat (apply Forall2_cons_inv_l in Hfields
                as ([? ?] & ? & [_ ?] & Hfields & ->); cbn [fst snd] in *).
      unfold refused, misfit.
      intros [?|[?|[?|[?|[?|Hbad]]]]]; try done.
      repeat (destruct Hbad as [(v & Hv & Hbad)|Hbad];
                [rewrite Hv in *; congruence|]).
      destruct Hbad as (v & Hv & Hbad). rewrite Hv in *. congruence. }
    split; [done|]. split; [by eauto|done].
  - destruct Hfields as [-> Hbad].
    assert refused as Hrefused.
    { unfold TiDBConfig.fields in Hbad.
      rewrite !Exists_cons, Exists_nil in Hbad. cbn [fst snd] in Hbad.
      assert (∀ (field : string) a, ¬ missing field →
                match values !! field with
                | Some v => TiDBConfig.field_value coerce a v = None
                | None => @None (json num) = None
                end → misfit field a) as Hrequired.
      { intros field a Hthere Hf. unfold misfit.
        destruct (values !! field) as [v|] eqn:Hv; [by eauto|].
        destruct Hthere. by left. }
      assert (∀ (field : string) a (d : json num),
                match values !! field with
                | Some v => TiDBConfig.field_value coerce a v = None
                | None => Some d = None
                end → misfit field a) as Hdefault.
      { intros field a d Hf. unfold misfit.
        destruct (values !! field) as [v|]; [by eauto|done]. }
      unfold refused.
      destruct Hbad as [Hb|[Hb|[Hb|[Hb|[Hb|[Hb|[Hb|[Hb|[Hb|[Hb|[Hb|[Hb|[Hb|[]]]]]]]]]]]]]];
        first [apply Hrequired in Hb; [|done] | apply Hdefault in Hb]; auto 20. }
    split; [done|]. split; [done|]. by intros (config & ? & _).
Qed.
End ConfigClaims.

(** * The claims on the concrete instance *)

Lemma rows3_payloads : Forall payload_is_mapping Demo.rows3.
Proof. repeat constructor. Qed.

Lemma no_filter_keys : plain_keys (num := Z) (filter_items None).
Proof. constructor. Qed.

Lemma filter_key_k (v : scalar Z) : plain_keys (filter_items (Some [("k"%string, v)])).
Proof. repeat constructor. Qed.

(** [search] with limit 2 over three stored records at distances 4, 1, 9. *)
Lemma search_nearest_first_witness :
  ∃ rs outs,
    TiDB.search Demo.distance "q" [0; 0] 2 None (World Demo.rows3 [] 0)
      = Ok (outs, World Demo.rows3 [] 0)
    ∧ rs ≡ₚ Demo.rows3
    ∧ OutputData.id <$> outs = (Some ∘ row_id) <$> take 2 rs
    ∧ (length outs ≤ 2)%nat
    ∧ ∃ ds, OutputData.score <$> outs = Some <$> ds ∧ StronglySorted Z.le ds.
Proof.
  destruct (search_nearest_first Demo.distance "q" [0; 0] 2 None (World Demo.rows3 [] 0))
    as (rs & outs & Hsearch & -> & Hperm & _ & Hlen & Hsorted).
  - lia.
  - apply no_filter_keys.
  - apply rows3_payloads.
  - exists rs. eexists.
    split_and!; [exact Hsearch|exact Hperm| |exact Hlen|exact Hsorted].
    rewrite <-list_fmap_compose. reflexivity.
Defined.

(** The same statement serves [{"k": 5}] and [{"k": "5"}]: the value goes
    out as the text of [str(value)]. *)
Lemma filter_clause_number_as_string :
  TiDB.filter_clause (Some [("k"%string, PyInt (num := Z) 5)])
  = TiDB.filter_clause (Some [("k"%string, PyStr "5")]).
Proof. reflexivity. Qed.

Lemma filters_number_and_text_coincide (query : string) (q : list Z) (limit : Z)
    (w : world Z) :
  TiDB.search Demo.distance query q limit (Some [("k"%string, PyInt 5)]) w
  = TiDB.search Demo.distance query q limit (Some [("k"%string, PyStr "5")]) w
  ∧ TiDB.list Demo.distance (Some [("k"%string, PyInt 5)]) limit w
    = TiDB.list Demo.distance (Some [("k"%string, PyStr "5")]) limit w.
Proof. split; reflexivity. Qed.

(** C2, as stated, fails: the stored record ["a"] has the payload
    [{"k": 5}], the filter is [{"k": 5}], and neither [search] nor [list]
    returns it. *)
Lemma filter_on_number_counterexample :
  (∃ r, r ∈ Demo.rows3 ∧ row_id r = "a"%string
        ∧ satisfies [("k"%string, PyInt 5)] r)
  ∧ TiDB.search Demo.distance "q" [0; 0] 5 (Some [("k"%string, PyInt 5)])
      (World Demo.rows3 [] 0) = Ok ([], World Demo.rows3 [] 0)
  ∧ TiDB.list Demo.distance (Some [("k"%string, PyInt 5)]) 100
      (World Demo.rows3 [] 0) = Ok ([[]], World Demo.rows3 [] 0).
Proof.
  split_and!; [|reflexivity..].
  eexists. split_and!; [apply list_elem_of_further, list_elem_of_here|done|].
  intros k v [= -> ->]%list_elem_of_singleton. by eexists.
Qed.

Lemma filters_keep_string_matches_witness :
  ∃ found listed,
    TiDB.search Demo.distance "q" [0; 0] 5 (Some [("k"%string, PyStr "v")])
      (World Demo.rows3 [] 0) = Ok (found, World Demo.rows3 [] 0)
    ∧ TiDB.list Demo.distance (Some [("k"%string, PyStr "v")]) 5
        (World Demo.rows3 [] 0) = Ok ([listed], World Demo.rows3 [] 0)
    ∧ (∀ o, o ∈ listed →
         ∃ r, r ∈ Demo.rows3 ∧ keeps [("k"%string, PyStr "v")] r
              ∧ o = row_output None r)
    ∧ ∀ r, keeps [("k"%string, PyStr "v")] r ↔ satisfies [("k"%string, PyStr "v")] r.
Proof.
  destruct (filters_keep_string_matches Demo.distance "q" [0; 0] 5
              (Some [("k"%string, PyStr "v")]) (World Demo.rows3 [] 0))
    as (found & listed & Hsearch & Hlist & _ & Hsound & _ & _ & _ & _ & Hstrings).
  - lia.
  - apply filter_key_k.
  - done.
  - exists found, listed. split_and!; [exact Hsearch|exact Hlist|exact Hsound|].
    apply Hstrings. repeat constructor. by eexists.
Defined.

(** C3, as stated, fails: with three stored rows and no filter, [list]
    returns a sequence of one element, the sequence of the three records. *)
Lemma list_is_nested_counterexample :
  ∃ groups,
    TiDB.list Demo.distance None 100 (World Demo.rows3 [] 0)
      = Ok (groups, World Demo.rows3 [] 0)
    ∧ length groups = 1%nat
    ∧ length (filter (λ r, selected [] r) Demo.rows3) = 3%nat.
Proof. eexists. split_and!; [vm_compute; reflexivity|reflexivity..]. Qed.

Lemma list_returns_one_group_witness :
  ∃ rs,
    TiDB.list Demo.distance None 2 (World Demo.rows3 [] 0)
      = Ok ([row_output None <$> rs], World Demo.rows3 [] 0)
    ∧ rs ⊆+ Demo.rows3
    ∧ length rs = 2%nat.
Proof.
  destruct (list_returns_one_group Demo.distance None 2 (World Demo.rows3 [] 0))
    as (rs & Hlist & Hsub & Hlen & _).
  - lia.
  - apply no_filter_keys.
  - intros _. apply rows3_payloads.
  - exists rs. split_and!; [exact Hlist|exact Hsub|exact Hlen].
Defined.

(** C9, as stated, fails: the four required fields are given and not
    empty, no field is unknown, and the configuration is refused, because
    the text ["x"] is no [int] for [port]. *)
Lemma config_type_counterexample :
  let values : gmap string (json Z) :=
    <["host"%string := JScalar (PyStr "localhost")]>
      (<["user"%string := JScalar (PyStr "root")]>
         (<["password"%string := JScalar (PyStr "secret")]>
            (<["database"%string := JScalar (PyStr "mem0db")]>
               (<["port"%string := JScalar (PyStr "x")]> ∅)))) in
  Forall (λ field, ∃ s, values !! field = Some (JScalar (PyStr s)) ∧ s ≠ ""%string)
         ["host"; "user"; "password"; "database"]%string
  ∧ (∀ k, is_Some (values !! k) → k ∈ TiDBConfig.model_fields)
  ∧ TiDBConfig.validate (num := Z) Demo.coerce values = Err ValidationError.
Proof.
  cbn zeta. split_and!.
  - repeat constructor; eexists; (split; [by simplify_map_eq|done]).
  - intros k [v Hk]. unfold TiDBConfig.model_fields.
    repeat (apply lookup_insert_Some in Hk as [[<- _]|[_ Hk]];
              [rewrite !elem_of_cons; auto 20|]).
    by rewrite lookup_empty in Hk.
  - vm_compute. reflexivity.
Qed.

Lemma insert_defaults_witness :
  ∃ new w',
    TiDB.insert Demo.distance Demo.uuid4 [[1; 2]; [3; 4]] None None
      (World Demo.rows3 [] 0) = Ok ((), w')
    ∧ db_rows w' = Demo.rows3 ++ new
    ∧ length new = 2%nat
    ∧ NoDup (row_id <$> new).
Proof.
  destruct (insert_defaults Demo.distance Demo.uuid4 [[1; 2]; [3; 4]]
              (World Demo.rows3 [] 0))
    as (new & w' & Hinsert & Hrows & _ & Hlen & _ & Hdistinct & _).
  - done.
  - compute_done.
  - compute_done.
  - apply Forall_forall. compute_done.
  - compute_done.
  - exists new, w'. split_and!; [exact Hinsert|exact Hrows|exact Hlen|exact Hdistinct].
Defined.

Lemma unknown_id_is_no_error_witness :
  TiDB.get Demo.distance "nonexistent" (World Demo.rows3 [] 0)
    = Ok (None, World Demo.rows3 [] 0)
  ∧ (∃ w', TiDB.update Demo.distance "nonexistent" (Some [7; 7]) (Some [])
             (World Demo.rows3 [] 0) = Ok ((), w') ∧ db_rows w' = Demo.rows3)
  ∧ (∃ w', TiDB.delete Demo.distance "nonexistent" (World Demo.rows3 [] 0)
             = Ok ((), w') ∧ db_rows w' = Demo.rows3).
Proof.
  apply (unknown_id_is_no_error Demo.distance "nonexistent" (Some [7; 7]) (Some [])
           (World Demo.rows3 [] 0)).
  compute_done.
Defined.

(** A state reached by one [insert] with a payload and one with none. *)
Lemma output_payload_never_null_witness :
  ∃ w, reachable Demo.distance Demo.uuid4 w
       ∧ length (db_rows w) = 2%nat
       ∧ ∀ outs w',
           TiDB.search Demo.distance "q" [0; 0] 5 None w = Ok (outs, w') →
           Forall (λ o, is_Some (OutputData.payload o)) outs.
Proof.
  set (w1 := World [Row "x" (TiDB.vector_value [1; 2]) (Some (JObj []))] [] 0).
  set (w2 := World (db_rows w1 ++ [Row (Demo.uuid4 0) (TiDB.vector_value [3; 4])
                                       (Some (JObj []))]) [] 1).
  assert (reachable Demo.distance Demo.uuid4 w2) as Hreach.
  { apply (reachable_call _ _ (CallInsert [[3; 4]] None None) w1); [|reflexivity].
    apply (reachable_call _ _ (CallInsert [[1; 2]] (Some [[]]) (Some ["x"%string]))
             Demo.w0); [|reflexivity].
    apply reachable_fresh. }
  exists w2. split_and!; [exact Hreach|reflexivity|].
  intros outs w'.
  apply (proj1 (output_payload_never_null Demo.distance Demo.uuid4 w2 Hreach)).
Defined.

(** * More about the data operations *)
Section DataOperations.
Context {num : Type} `{!FloatModel num}.
Variable VEC_COSINE_DISTANCE : json num → json num → num.
Variable uuid4 : nat → string.

Implicit Types (r : row num) (w : world num) (q : list num)
  (filters : option (list (string * scalar num))).

Lemma mapM_result_raises {A B} (f : A → result B) (e : error) (l : list A) :
  Forall (λ x, (∃ y, f x = Ok y) ∨ f x = Err e) l →
  Exists (λ x, f x = Err e) l →
  mapM_result f l = Err e.
Proof.
  induction 1 as [|x l [[y Hx]|Hx] Hl IH]; intros Hex.
  - by apply Exists_nil in Hex.
  - apply Exists_cons in Hex as [Hex|Hex]; [congruence|].
    cbn. rewrite Hx. cbn [mbind result_bind]. by rewrite IH.
  - cbn. by rewrite Hx.
Qed.

Lemma filter_unique_id r (rows : list (row num)) :
  NoDup (row_id <$> rows) → r ∈ rows →
  filter (λ r', bool_decide (row_id r' = row_id r)) rows = [r].
Proof.
  induction rows as [|r0 rows IH]; [by intros _ ?%elem_of_nil|].
  rewrite fmap_cons, NoDup_cons. intros [Hfresh Hrest] [->|Hin]%elem_of_cons.
  - rewrite filter_cons, decide_True by by apply bool_decide_pack.
    by rewrite filter_unknown_id.
  - rewrite filter_cons, decide_False, IH; [done..|].
    intros Heq%bool_decide_unpack. apply Hfresh. rewrite Heq.
    by apply list_elem_of_fmap_2.
Qed.

Lemma get_unique r w :
  NoDup (row_id <$> db_rows w) → r ∈ db_rows w →
  TiDB.get VEC_COSINE_DISTANCE (row_id r) w
  = (out ← TiDB.plain_output (plain_tuple r); Ok (Some out, settled w)).
Proof. intros Hkey Hr. by rewrite get_result, filter_unique_id. Qed.

(** X1. [get] on a stored identifier returns that row: its identifier, no
    score, and the mapping stored as its payload (the empty mapping when the
    column is NULL); the stored rows stay as they are. *)
Theorem get_returns_stored_row r w :
  NoDup (row_id <$> db_rows w) →
  r ∈ db_rows w →
  payload_is_mapping r →
  TiDB.get VEC_COSINE_DISTANCE (row_id r) w
  = Ok (Some (OutputData.mk (Some (row_id r)) None (Some (payload_mapping r))),
        settled w)
  ∧ (row_payload r = None → payload_mapping r = [])
  ∧ (∀ m, row_payload r = Some (JObj m) → payload_mapping r = m).
Proof.
  intros Hkey Hr Hmap. split_and!.
  - rewrite get_unique, plain_output_tuple by done. done.
  - unfold payload_mapping. by intros ->.
  - unfold payload_mapping. by intros m ->.
Qed.

(** X2. A stored payload that is the JSON value [null] is returned as a null
    payload (the guard of the result mapper only catches the SQL NULL), and
    a stored payload that is a JSON array makes [get] raise a validation
    error. *)
Theorem get_reads_other_json_payloads r w :
  NoDup (row_id <$> db_rows w) →
  r ∈ db_rows w →
  (row_payload r = Some (JScalar PyNone) →
   TiDB.get VEC_COSINE_DISTANCE (row_id r) w
   = Ok (Some (OutputData.mk (Some (row_id r)) None None), settled w))
  ∧ (∀ l, row_payload r = Some (JArr l) →
     TiDB.get VEC_COSINE_DISTANCE (row_id r) w = Err ValidationError).
Proof.
  intros Hkey Hr. split.
  - intros Hnull. rewrite get_unique by done.
    destruct r as [i v p]. cbn in Hnull. by subst p.
  - intros l Harr. rewrite get_unique by done.
    destruct r as [i v p]. cbn in Harr. by subst p.
Qed.

Lemma given_rows_ids (ids : list string) payloads (vectors : list (list num)) :
  length ids = length vectors →
  row_id <$> given_rows ids payloads vectors = ids.
Proof.
  intros Hlen. unfold given_rows. rewrite fmap_imap.
  apply list_eq. intros i. rewrite list_lookup_imap.
  destruct (vectors !! i) as [v|] eqn:Hv; cbn.
  - apply lookup_lt_Some in Hv. rewrite <-Hlen in Hv.
    by rewrite (list_lookup_lookup_total_lt ids i).
  - apply lookup_ge_None in Hv. symmetry. apply lookup_ge_None. lia.
Qed.

(** [insert] with ids and payloads as long as the vectors: the rows go in
    if the primary key admits them. *)
Lemma insert_given (vectors : list (list num)) payloads (ids : list string) w :
  vectors ≠ [] →
  length ids = length vectors →
  length payloads = length vectors →
  Forall (λ i, String.length i ≤ 36)%nat ids →
  TiDB.insert VEC_COSINE_DISTANCE uuid4 vectors (Some payloads) (Some ids) w
  = (t ← check_primary_key (db_rows w ++ given_rows ids payloads vectors);
     Ok ((), World t [] (uuid_drawn w))).
Proof.
  intros Hne Hids Hpayloads Hlen. unfold TiDB.insert.
  destruct vectors as [|v0 vs] eqn:Hv; [done|]. rewrite <-Hv in *. clear Hne.
  unfold mbind at 1, M_bind. cbn [mret M_ret].
  unfold mbind at 1, M_bind, lift.
  rewrite (mapM_result_ok _ (λ iv : nat * list num,
             [SqlString (ids !!! iv.1);
              json_dumps (TiDB.vector_value iv.2);
              json_dumps (JObj (payloads !!! iv.1))])).
  2:{ apply Forall_forall. intros [i v] (j & y & [= -> ->] & Hj)%elem_of_lookup_imap.
      apply lookup_lt_Some in Hj. unfold TiDB.item.
      rewrite (list_lookup_lookup_total_lt ids j) by lia.
      rewrite (list_lookup_lookup_total_lt payloads j) by lia. done. }
  unfold executemany.
  destruct ((_ <$> imap pair vectors)) as [|a0 data0] eqn:Hdata.
  { rewrite Hv in Hdata. done. }
  rewrite <-Hdata. clear Hdata.
  rewrite mapM_result_fmap.
  rewrite (mapM_result_ok _ (λ iv : nat * list num,
             Row (ids !!! iv.1) (TiDB.vector_value iv.2)
                 (Some (JObj (payloads !!! iv.1))))).
  2:{ apply Forall_forall. intros [i v] (j & y & [= -> ->] & Hj)%elem_of_lookup_imap.
      cbn [compose fst snd]. rewrite values_row_insert. rewrite decide_True; [done|].
      apply lookup_lt_Some in Hj.
      eapply Forall_forall in Hlen; [done|].
      apply list_elem_of_lookup_total_2. lia. }
  cbn [mbind result_bind]. rewrite fmap_imap. done.
Qed.

(** X3. After [insert] of vectors with their ids and payloads, [get] on any
    of the ids returns the payload inserted with it, with no score. The ids
    are new to the table, distinct, and at most 36 characters long. *)
Theorem insert_then_get (vectors : list (list num)) payloads (ids : list string) w :
  vectors ≠ [] →
  length ids = length vectors →
  length payloads = length vectors →
  Forall (λ i, String.length i ≤ 36)%nat ids →
  NoDup (row_id <$> db_rows w) →
  NoDup ids →
  (∀ i, i ∈ ids → i ∉ row_id <$> db_rows w) →
  ∃ w1,
    TiDB.insert VEC_COSINE_DISTANCE uuid4 vectors (Some payloads) (Some ids) w
      = Ok ((), w1)
    ∧ length (db_rows w1) = (length (db_rows w) + length vectors)%nat
    ∧ ∀ i id payload,
        ids !! i = Some id → payloads !! i = Some payload →
        TiDB.get VEC_COSINE_DISTANCE id w1
        = Ok (Some (OutputData.mk (Some id) None (Some payload)), settled w1).
Proof.
  intros Hne Hids Hpayloads Hlen Hstored Hdistinct Hfresh.
  assert (NoDup (row_id <$> db_rows w ++ given_rows ids payloads vectors)) as Hkey.
  { rewrite fmap_app, given_rows_ids by done. apply NoDup_app. split_and!; [done| |done].
    intros i Hi Hi'. by apply (Hfresh i). }
  eexists. split_and!.
  - rewrite insert_given by done. unfold check_primary_key.
    rewrite decide_True by done. done.
  - cbn [db_rows]. rewrite length_app. unfold given_rows. by rewrite length_imap.
  - intros i id payload Hid Hpayload.
    assert (is_Some (vectors !! i)) as [v Hv].
    { apply lookup_lt_is_Some. rewrite <-Hids. by eapply lookup_lt_Some. }
    set (r := Row id (TiDB.vector_value v) (Some (JObj payload))).
    assert (r ∈ db_rows w ++ given_rows ids payloads vectors) as Hr.
    { apply elem_of_app. right. apply list_elem_of_lookup. exists i.
      unfold given_rows. rewrite list_lookup_imap, Hv. cbn.
      by rewrite (list_lookup_total_correct ids i id),
                 (list_lookup_total_correct payloads i payload). }
    change id with (row_id r) at 1.
    rewrite get_unique by done. done.
Qed.

(** X4. [insert] with an id that a stored row has, or with the same id
    twice, raises an integrity error. *)
Theorem insert_duplicate_id_raises (vectors : list (list num)) payloads
    (ids : list string) w :
  vectors ≠ [] →
  length ids = length vectors →
  length payloads = length vectors →
  Forall (λ i, String.length i ≤ 36)%nat ids →
  (∃ i, i ∈ ids ∧ i ∈ row_id <$> db_rows w) ∨ ¬ NoDup ids →
  TiDB.insert VEC_COSINE_DISTANCE uuid4 vectors (Some payloads) (Some ids) w
  = Err IntegrityError.
Proof.
  intros Hne Hids Hpayloads Hlen Hdup. rewrite insert_given by done.
  unfold check_primary_key. rewrite decide_False; [done|].
  rewrite fmap_app, given_rows_ids by done. rewrite NoDup_app.
  intros (_ & Hfresh & Hdistinct). destruct Hdup as [(i & Hi & Hstored)|Hdup]; [|done].
  by apply (Hfresh i).
Qed.

(** X5. [insert] with fewer ids or fewer payloads than vectors raises an
    index error. *)
Theorem insert_short_lists_raise (vectors : list (list num)) payloads ids w :
  match ids with
  | Some ids => (length ids < length vectors)%nat
  | None => False
  end
  ∨ match payloads with
    | Some payloads => (length payloads < length vectors)%nat
    | None => False
    end →
  TiDB.insert VEC_COSINE_DISTANCE uuid4 vectors payloads ids w = Err IndexError.
Proof.
  intros Hshort. unfold TiDB.insert.
  destruct vectors as [|v0 vs] eqn:Hv.
  { destruct Hshort as [Hs|Hs]; [destruct ids|destruct payloads]; cbn in Hs; lia || done. }
  rewrite <-Hv in *. clear Hv.
  set (ids1 := match ids with
               | Some ids => ids
               | None => uuid4 <$> seq (uuid_drawn w) (length vectors)
               end).
  set (payloads1 := match payloads with
                    | Some payloads => payloads
                    | None => replicate (length vectors) []
                    end).
  assert ((length ids1 < length vectors)%nat ∨ (length payloads1 < length vectors)%nat)
    as Hshort1.
  { destruct Hshort as [Hs|Hs]; [left; by destruct ids|right; by destruct payloads]. }
  assert (mapM_result (λ '(i, vector),
            id ← TiDB.item ids1 i;
            payload ← TiDB.item payloads1 i;
            Ok [SqlString id; json_dumps (TiDB.vector_value vector);
                json_dumps (JObj payload)]) (imap pair vectors) = Err IndexError)
    as Hdata.
  { apply mapM_result_raises.
    - apply Forall_forall. intros [i v] _. unfold TiDB.item.
      destruct (ids1 !! i); [|by right]. destruct (payloads1 !! i); [|by right].
      left. by eexists.
    - apply Exists_exists.
      set (k := (length ids1 `min` length payloads1)%nat).
      assert (is_Some (vectors !! k)) as [v Hv] by (apply lookup_lt_is_Some; lia).
      exists (k, v). split; [by apply (elem_of_lookup_imap_2 pair vectors v k)|].
      unfold TiDB.item. destruct (ids1 !! k) eqn:Hid; [|done].
      rewrite (proj2 (lookup_ge_None payloads1 k)); [done|].
      apply lookup_lt_Some in Hid. lia. }
  unfold mbind at 1, M_bind.
  destruct ids as [l|]; cbn [mret M_ret TiDB.fresh_ids];
    unfold mbind at 1, M_bind, lift; fold ids1 payloads1; by rewrite Hdata.
Qed.
(** X6. [delete] removes the rows with that id and keeps every other row,
    in order; afterwards [get] on the id finds nothing, and a second
    [delete] changes nothing. *)
Theorem delete_then_get (vector_id : string) w :
  ∃ w1 w2,
    TiDB.delete VEC_COSINE_DISTANCE vector_id w = Ok ((), w1)
    ∧ db_rows w1 = filter (λ r, row_id r ≠ vector_id) (db_rows w)
    ∧ TiDB.get VEC_COSINE_DISTANCE vector_id w1 = Ok (None, settled w1)
    ∧ TiDB.delete VEC_COSINE_DISTANCE vector_id w1 = Ok ((), w2)
    ∧ db_rows w2 = db_rows w1.
Proof.
  assert (∀ rows : list (row num),
            filter (λ r, negb (bool_decide (row_id r = vector_id))) rows
            = filter (λ r, row_id r ≠ vector_id) rows) as Hfilter.
  { intros rows. apply list_filter_iff. intros r.
    rewrite negb_True, bool_decide_spec. done. }
  assert (vector_id ∉ row_id <$> filter (λ r, row_id r ≠ vector_id) (db_rows w))
    as Hgone.
  { intros (r & -> & [Hne _]%list_elem_of_filter)%list_elem_of_fmap. done. }
  do 2 eexists. split_and!.
  - by rewrite delete_result.
  - cbn [db_rows]. apply Hfilter.
  - rewrite get_result. cbn [db_rows]. rewrite Hfilter.
    by rewrite filter_unknown_id.
  - by rewrite delete_result.
  - cbn [db_rows]. rewrite !Hfilter. rewrite list_filter_filter.
    apply list_filter_iff. intros r. tauto.
Qed.

(** X7. After [update] of a stored id with a payload (with or without a
    vector), [get] on the id returns the new payload; the identifiers in the
    table are the same as before. *)
Theorem update_then_get (vector_id : string) vector payload w :
  NoDup (row_id <$> db_rows w) →
  vector_id ∈ row_id <$> db_rows w →
  ∃ w1,
    TiDB.update VEC_COSINE_DISTANCE vector_id vector (Some payload) w = Ok ((), w1)
    ∧ row_id <$> db_rows w1 = row_id <$> db_rows w
    ∧ TiDB.get VEC_COSINE_DISTANCE vector_id w1
      = Ok (Some (OutputData.mk (Some vector_id) None (Some payload)), settled w1).
Proof.
  intros Hkey (r & -> & Hr)%list_elem_of_fmap.
  set (f := λ r', if bool_decide (row_id r' = row_id r)
                  then rewritten vector (Some payload) r' else r').
  assert (row_id <$> (f <$> db_rows w) = row_id <$> db_rows w) as Hids.
  { rewrite <-list_fmap_compose. apply list_fmap_ext. intros ? r' _.
    unfold f. cbn [compose]. by case_bool_decide. }
  exists (World (f <$> db_rows w) [] (uuid_drawn w)). split_and!.
  - rewrite update_result. by destruct vector.
  - done.
  - assert (f r ∈ f <$> db_rows w) as Hfr by by apply list_elem_of_fmap_2.
    assert (row_id (f r) = row_id r) as Hid by (unfold f; by case_bool_decide).
    rewrite <-Hid. rewrite get_unique; cbn [db_rows]; [|by rewrite Hids|done].
    unfold f. rewrite bool_decide_eq_true_2 by done. done.
Qed.

(** X8. [search], [get] and [list] write nothing: when they return, the
    stored rows and the count of drawn UUIDs are what they were. *)
Theorem reads_leave_rows w :
  (∀ query q limit filters outs w',
     TiDB.search VEC_COSINE_DISTANCE query q limit filters w = Ok (outs, w') →
     w' = settled w)
  ∧ (∀ filters limit groups w',
       TiDB.list VEC_COSINE_DISTANCE filters limit w = Ok (groups, w') →
       w' = settled w)
  ∧ (∀ vector_id out w',
       TiDB.get VEC_COSINE_DISTANCE vector_id w = Ok (out, w') →
       db_rows w' = db_rows w ∧ uuid_drawn w' = uuid_drawn w).
Proof.
  split_and!.
  - intros query q limit filters outs w'. apply search_frame.
  - intros filters limit groups w'. apply list_frame.
  - intros i out w'. rewrite get_result.
    destruct (filter _ (db_rows w)) as [|r rest]; [by intros [= _ <-]|].
    destruct (TiDB.plain_output _); [|done]. by intros [= _ <-].
Qed.

(** X9. With one limit and one filter mapping, whose keys are plain member
    names, [search] and [list] return the same number of records; when
    [list] returns fewer than [limit], [search] returns the same records,
    identifier and payload, in another order. *)
Theorem search_reorders_list (query : string) q (limit : Z) filters w :
  0 ≤ limit →
  plain_keys (filter_items filters) →
  Forall payload_is_mapping (db_rows w) →
  ∃ found listed,
    TiDB.search VEC_COSINE_DISTANCE query q limit filters w = Ok (found, settled w)
    ∧ TiDB.list VEC_COSINE_DISTANCE filters limit w = Ok ([listed], settled w)
    ∧ length found = length listed
    ∧ ((length listed < Z.to_nat limit)%nat →
       id_and_payload <$> found ≡ₚ id_and_payload <$> listed).
Proof.
  intros Hlimit Hkeys Hrows.
  set (kept := filter (λ r, selected (filter_items filters) r) (db_rows w)).
  assert (Forall payload_is_mapping kept) as Hkept by by apply Forall_filter_keep.
  destruct (search_result VEC_COSINE_DISTANCE query q limit filters w)
    as (rs & Hsearch & Hperm & _); [done..|].
  fold kept in Hperm.
  assert (length rs = length kept) as Hlen by by apply Permutation_length.
  do 2 eexists. split_and!; [exact Hsearch|by apply list_result|..].
  - fold kept. rewrite !length_fmap, !length_take. lia.
  - fold kept. rewrite length_fmap, length_take. intros Hfew.
    rewrite !take_ge by lia. rewrite <-!list_fmap_compose.
    by apply fmap_Permutation.
Qed.

(** X10. With filter keys that are plain member names, a negative limit
    makes [search] and [list] raise (the engine refuses the LIMIT); limit 0
    returns no record, whatever is stored. *)
Theorem limit_bounds (query : string) q filters w :
  plain_keys (filter_items filters) →
  (∀ limit, limit < 0 →
     TiDB.search VEC_COSINE_DISTANCE query q limit filters w = Err ProgrammingError
     ∧ TiDB.list VEC_COSINE_DISTANCE filters limit w = Err ProgrammingError)
  ∧ TiDB.search VEC_COSINE_DISTANCE query q 0 filters w = Ok ([], settled w)
  ∧ TiDB.list VEC_COSINE_DISTANCE filters 0 w = Ok ([[]], settled w).
Proof.
  intros Hkeys. split_and!.
  - intros limit Hlimit.
    by rewrite search_negative_limit, list_negative_limit.
  - unfold TiDB.search. rewrite filter_clause_items.
    unfold mbind at 1, M_bind. by rewrite execute_search.
  - unfold TiDB.list. rewrite filter_clause_items. cbn [app].
    unfold mbind at 1, M_bind. by rewrite execute_list.
Qed.
(** X19. In every state reached from the empty table through the adapter's
    own calls, stored identifiers are distinct and every stored payload is a
    mapping or NULL, so [get] on a stored identifier never raises: it returns
    that row's record. *)
Theorem get_after_adapter_calls r w :
  reachable VEC_COSINE_DISTANCE uuid4 w →
  r ∈ db_rows w →
  NoDup (row_id <$> db_rows w)
  ∧ TiDB.get VEC_COSINE_DISTANCE (row_id r) w
    = Ok (Some (OutputData.mk (Some (row_id r)) None (Some (payload_mapping r))),
          settled w).
Proof.
  intros Hreach Hr.
  pose proof (reachable_primary_key VEC_COSINE_DISTANCE uuid4 w Hreach) as Hkey.
  pose proof (reachable_payloads VEC_COSINE_DISTANCE uuid4 w Hreach) as Hmaps.
  split; [done|].
  rewrite Forall_forall in Hmaps.
  rewrite get_unique, plain_output_tuple by auto. done.
Qed.

End DataOperations.

(** * The connection and the lifecycle *)
Section ConnectionFacts.
Implicit Types (ssl_ca ssl_cert ssl_key : option string).

Lemma ssl_config_flags (ssl_ca ssl_cert ssl_key : option string)
    (ssl_verify_cert ssl_verify_identity : bool) :
  Instance.build_ssl_config false ssl_ca ssl_cert ssl_key ssl_verify_cert ssl_verify_identity
    !! "verify_mode"%string = Some (SslFlag ssl_verify_cert).
Proof. unfold Instance.build_ssl_config. by rewrite lookup_insert_eq. Qed.

(** X11. With [ssl_disabled], the connection is made with exactly the
    arguments host, port, user, password, database, charset [utf8mb4] and
    autocommit on, and no [ssl] argument, whatever certificate paths and
    flags are given. *)
Theorem connection_without_ssl (host : string) (port : Z) (user password database : string)
    (collection_name : string) (dims : Z) ssl_ca ssl_cert ssl_key
    (ssl_verify_cert ssl_verify_identity : bool) :
  Instance.connect_config
    (Instance.Adapter host port user password database collection_name dims
       (Instance.build_ssl_config true ssl_ca ssl_cert ssl_key
          ssl_verify_cert ssl_verify_identity))
  = <["autocommit"%string := ConnBool true]>
      (<["charset"%string := ConnStr "utf8mb4"]>
         (<["database"%string := ConnStr database]>
            (<["password"%string := ConnStr password]>
               (<["user"%string := ConnStr user]>
                  (<["port"%string := ConnInt port]>
                     (<["host"%string := ConnStr host]> ∅))))))
  ∧ Instance.connect_config
      (Instance.Adapter host port user password database collection_name dims
         (Instance.build_ssl_config true ssl_ca ssl_cert ssl_key
            ssl_verify_cert ssl_verify_identity)) !! "ssl"%string = None.
Proof.
  unfold Instance.connect_config, Instance.build_ssl_config. cbn [Instance.ssl_config].
  rewrite decide_True by done. split; [done|]. by simplify_map_eq.
Qed.

(** X12. Without [ssl_disabled], the connection always carries an [ssl]
    argument: it holds [check_hostname] = [ssl_verify_identity] and
    [verify_mode] = [ssl_verify_cert], and holds [ca], [cert], [key] exactly
    for the paths that are given and not empty, and nothing else. *)
Theorem connection_with_ssl (host : string) (port : Z) (user password database : string)
    (collection_name : string) (dims : Z) ssl_ca ssl_cert ssl_key
    (ssl_verify_cert ssl_verify_identity : bool) :
  let given (path : option string) : option ssl_value :=
    match path with
    | Some p => if decide (p = ""%string) then None else Some (SslPath p)
    | None => None
    end in
  ∃ ssl,
    Instance.connect_config
      (Instance.Adapter host port user password database collection_name dims
         (Instance.build_ssl_config false ssl_ca ssl_cert ssl_key
            ssl_verify_cert ssl_verify_identity)) !! "ssl"%string = Some (ConnSsl ssl)
    ∧ ssl !! "check_hostname"%string = Some (SslFlag ssl_verify_identity)
    ∧ ssl !! "verify_mode"%string = Some (SslFlag ssl_verify_cert)
    ∧ ssl !! "ca"%string = given ssl_ca
    ∧ ssl !! "cert"%string = given ssl_cert
    ∧ ssl !! "key"%string = given ssl_key
    ∧ ∀ k, is_Some (ssl !! k) →
           k ∈ ["ca"; "cert"; "key"; "check_hostname"; "verify_mode"]%string.
Proof.
  cbn zeta. eexists. split_and!.
  - unfold Instance.connect_config. cbn [Instance.ssl_config].
    rewrite decide_False; [by rewrite lookup_insert_eq|].
    intros Hempty. pose proof (ssl_config_flags ssl_ca ssl_cert ssl_key
                                 ssl_verify_cert ssl_verify_identity) as Hflag.
    rewrite Hempty in Hflag. done.
  - unfold Instance.build_ssl_config. by simplify_map_eq.
  - apply ssl_config_flags.
  - unfold Instance.build_ssl_config.
    destruct ssl_ca as [p|]; [destruct (String.eqb_spec p "")|];
      destruct ssl_cert as [p'|]; try destruct (String.eqb_spec p' "");
      destruct ssl_key as [p''|]; try destruct (String.eqb_spec p'' "");
      simplify_map_eq; try done; by rewrite ?decide_True, ?decide_False by done.
  - unfold Instance.build_ssl_config.
    destruct ssl_ca as [p|]; [destruct (String.eqb_spec p "")|];
      destruct ssl_cert as [p'|]; try destruct (String.eqb_spec p' "");
      destruct ssl_key as [p''|]; try destruct (String.eqb_spec p'' "");
      simplify_map_eq; try done; by rewrite ?decide_True, ?decide_False by done.
  - unfold Instance.build_ssl_config.
    destruct ssl_ca as [p|]; [destruct (String.eqb_spec p "")|];
      destruct ssl_cert as [p'|]; try destruct (String.eqb_spec p' "");
      destruct ssl_key as [p''|]; try destruct (String.eqb_spec p'' "");
      simplify_map_eq; try done; by rewrite ?decide_True, ?decide_False by done.
  - intros k Hk. unfold Instance.build_ssl_config in Hk.
    destruct (decide (k ∈ ["ca"; "cert"; "key"; "check_hostname"; "verify_mode"]%string))
      as [|Hnot]; [done|].
    rewrite !not_elem_of_cons in Hnot. destruct Hnot as (? & ? & ? & ? & ? & _).
    destruct ssl_ca as [p|]; [destruct (String.eqb p "")|];
      destruct ssl_cert as [p'|]; try destruct (String.eqb p' "");
      destruct ssl_key as [p''|]; try destruct (String.eqb p'' "");
      rewrite ?lookup_insert_ne, lookup_empty in Hk by done; by destruct Hk.
Qed.
End ConnectionFacts.

Section LifecycleFacts.
Context {num : Type} `{!FloatModel num}.
Variable VEC_COSINE_DISTANCE : json num → json num → num.
Variable accepts : gmap string connect_value → bool.
Variable table_statistics : string → list (row num) → option Z * option Z * option Z.
Variable quoted_identifier : string → option string.

Implicit Types (self : Instance.adapter) (s : Instance.server (num := num))
  (table : string).

Lemma list_cols_result self s :
  Instance.list_cols self s
  = (Returned (SqlString <$> elements (dom (Instance.tables s))),
     Instance.with_tables s (Instance.tables s) []).
Proof.
  unfold Instance.list_cols, mbind, Instance.S_bind.
  cbn [Instance.execute_show_tables Instance.server_fetchall Instance.with_tables
       Instance.result_set Instance.tables Instance.schema Instance.drawn
       Instance.connected].
  unfold Instance.lift_result. rewrite mapM_result_fmap.
  rewrite (mapM_result_ok _ SqlString) by by apply Forall_forall.
  done.
Qed.

Lemma contains_name_tables (names : list string) (name : string) :
  Instance.contains_name (num := num) (SqlString <$> names) name ↔ name ∈ names.
Proof.
  unfold Instance.contains_name. rewrite existb_True, Exists_exists. split.
  - intros (c & (n & -> & Hn)%list_elem_of_fmap & Hc).
    apply bool_decide_unpack in Hc. by subst.
  - intros Hn. exists (SqlString name). split; [by apply list_elem_of_fmap_2|].
    by apply bool_decide_pack.
Qed.

(** X13. [list_cols] returns the name of every table of the database, each
    once, whichever program made it; it does not depend on the adapter's
    collection. *)
Theorem list_cols_lists_every_table self s :
  ∃ names,
    Instance.list_cols self s
    = (Returned (SqlString <$> names), Instance.with_tables s (Instance.tables s) [])
    ∧ NoDup names
    ∧ ∀ name, name ∈ names ↔ is_Some (Instance.tables s !! name).
Proof.
  exists (elements (dom (Instance.tables s))). split_and!.
  - apply list_cols_result.
  - apply NoDup_elements.
  - intros name. by rewrite elem_of_elements, elem_of_dom.
Qed.

Lemma create_col_result self (vector_size : Z) (distance : string) s table :
  quoted_identifier (Instance.collection_name self) = Some table →
  Instance.create_col quoted_identifier self vector_size distance s
  = (Returned (),
     Instance.with_tables s
       (match Instance.tables s !! table with
        | Some _ => Instance.tables s
        | None => <[table := []]> (Instance.tables s)
        end) []).
Proof.
  intros Hname. unfold Instance.create_col, Instance.execute_admin. rewrite Hname.
  by destruct (Instance.tables s !! table).
Qed.

Lemma delete_col_result self s table :
  quoted_identifier (Instance.collection_name self) = Some table →
  Instance.delete_col quoted_identifier self s
  = (Returned (), Instance.with_tables s (delete table (Instance.tables s)) []).
Proof.
  intros Hname. unfold Instance.delete_col, Instance.execute_admin. by rewrite Hname.
Qed.

(** On a missing table, an operation that gets as far as sending its
    statement is refused by the engine. *)
Lemma on_missing_table {A} self (m : M A) s table :
  has_percent (Instance.collection_name self) = false →
  quoted_identifier (Instance.collection_name self) = Some table →
  Instance.tables s !! table = None →
  (∀ e, m (World [] (Instance.result_set s) (Instance.drawn s)) = Err e →
        Instance.raised_before_sending e = false) →
  Instance.on_collection quoted_identifier self m s = (Raised ProgrammingError, s).
Proof.
  intros Hplain Hname Hnone Hsent. unfold Instance.on_collection, Instance.refused.
  rewrite Hplain, Hname, Hnone.
  destruct (m _) as [?|e]; [done|]. by rewrite (Hsent e).
Qed.

Lemma search_sent (query : string) (q : list num) (limit : Z)
    (filters : option (list (string * scalar num))) (w : world num) e :
  plain_keys (filter_items filters) →
  db_rows w = [] →
  TiDB.search VEC_COSINE_DISTANCE query q limit filters w = Err e →
  Instance.raised_before_sending e = false.
Proof.
  intros Hkeys Hrows. destruct (decide (0 ≤ limit)).
  - destruct (search_result VEC_COSINE_DISTANCE query q limit filters w)
      as (rs & -> & _); [done|done| |done].
    rewrite Hrows. constructor.
  - rewrite search_negative_limit by (done || lia). by intros [= <-].
Qed.

Lemma list_sent (limit : Z) (filters : option (list (string * scalar num)))
    (w : world num) e :
  plain_keys (filter_items filters) →
  db_rows w = [] →
  TiDB.list VEC_COSINE_DISTANCE filters limit w = Err e →
  Instance.raised_before_sending e = false.
Proof.
  intros Hkeys Hrows. destruct (decide (0 ≤ limit)).
  - rewrite list_result; [done|done|done|]. rewrite Hrows. constructor.
  - rewrite list_negative_limit by (done || lia). by intros [= <-].
Qed.

(** X14. When the server reads the collection's name as a table's name,
    [create_col] makes that table when there is none, and leaves an existing
    one with the rows it has; other tables are not touched. The vector size
    and the distance it is given change nothing. A name the server refuses
    makes it raise, with the tables as they were. *)
Theorem create_col_keeps_rows self (vector_size : Z) (distance : string) s :
  match quoted_identifier (Instance.collection_name self) with
  | Some table =>
      ∃ s',
        Instance.create_col quoted_identifier self vector_size distance s
        = (Returned (), s')
        ∧ Instance.tables s' !! table = Some (default [] (Instance.tables s !! table))
        ∧ ∀ other, other ≠ table →
                   Instance.tables s' !! other = Instance.tables s !! other
  | None =>
      Instance.create_col quoted_identifier self vector_size distance s
      = (Raised ProgrammingError, s)
  end.
Proof.
  destruct (quoted_identifier (Instance.collection_name self)) as [table|] eqn:Hname.
  - eexists. split_and!; [by apply create_col_result|..];
      cbn [Instance.tables Instance.with_tables].
    + destruct (Instance.tables s !! table) eqn:Hlookup; [done|].
      by rewrite lookup_insert_eq.
    + intros other Hother.
      destruct (Instance.tables s !! table); [done|].
      by rewrite lookup_insert_ne.
  - unfold Instance.create_col, Instance.execute_admin. by rewrite Hname.
Qed.

(** X15. [__init__] raises when the connection is refused, and then leaves
    the server as it was. Otherwise, for a collection name that the server
    reads as the table of that name, it connects once, with the arguments of
    [_create_connection], and returns with the collection's table in place:
    an existing table keeps its rows, a missing one is created empty, and
    other tables are not touched. *)
Theorem init_ensures_collection (host : string) (port : Z)
    (user password database collection_name : string) (dims : Z) (ssl_disabled : bool)
    (ssl_ca ssl_cert ssl_key : option string) (ssl_verify_cert ssl_verify_identity : bool) s :
  let self :=
    Instance.Adapter host port user password database collection_name dims
      (Instance.build_ssl_config ssl_disabled ssl_ca ssl_cert ssl_key
         ssl_verify_cert ssl_verify_identity) in
  quoted_identifier collection_name = Some collection_name →
  (accepts (Instance.connect_config self) = false →
   Instance.__init__ accepts quoted_identifier host port user password database
     collection_name dims ssl_disabled ssl_ca ssl_cert ssl_key ssl_verify_cert
     ssl_verify_identity s
   = (RaisedOperationalError, s))
  ∧ (accepts (Instance.connect_config self) = true →
     ∃ s',
       Instance.__init__ accepts quoted_identifier host port user password database
         collection_name dims ssl_disabled ssl_ca ssl_cert ssl_key ssl_verify_cert
         ssl_verify_identity s
       = (Returned self, s')
       ∧ Instance.tables s' !! collection_name
         = Some (default [] (Instance.tables s !! collection_name))
       ∧ (∀ other, other ≠ collection_name →
                   Instance.tables s' !! other = Instance.tables s !! other)
       ∧ Instance.connected s'
         = Instance.connected s ++ [Instance.connect_config self]).
Proof.
  cbn zeta. intros Hname. split; intros Haccept; unfold Instance.__init__.
  - unfold mbind at 1, Instance.S_bind, Instance._create_connection.
    by rewrite Haccept.
  - unfold mbind at 1, Instance.S_bind, Instance._create_connection.
    rewrite Haccept. unfold mbind at 1, Instance.S_bind. rewrite list_cols_result.
    cbn [Instance.tables Instance.with_tables].
    destruct (Instance.contains_name _ collection_name) eqn:Hin.
    + apply Is_true_true, contains_name_tables in Hin.
      apply elem_of_elements, elem_of_dom in Hin as [rows Hrows].
      eexists. split_and!; [done|..];
        unfold Instance.with_tables; cbn [Instance.tables Instance.connected].
      * by rewrite Hrows.
      * done.
      * done.
    + assert (Instance.tables s !! collection_name = None) as Hnone.
      { apply eq_None_not_Some. intros Hsome%elem_of_dom%elem_of_elements.
        apply contains_name_tables, Is_true_true in Hsome. congruence. }
      unfold mbind, Instance.S_bind.
      rewrite (create_col_result _ _ _ _ collection_name) by done.
      cbn [Instance.tables Instance.with_tables Instance.collection_name].
      rewrite Hnone.
      eexists. split_and!; [done|..];
        unfold Instance.with_tables; cbn [Instance.tables Instance.connected].
      * by rewrite lookup_insert_eq.
      * intros other Hother. by rewrite lookup_insert_ne.
      * done.
Qed.

(** X16. [delete_col] drops the table the collection's name stands for and
    no other; a second [delete_col] is accepted and changes nothing;
    afterwards [search], [get], [list] and [delete] on the collection are
    refused by the engine ([search] and [list] with filter keys that are
    plain member names, so that their statement is sent). The name has no
    [%], which the driver's formatting would take. *)
Theorem delete_col_drops_collection self s table :
  has_percent (Instance.collection_name self) = false →
  quoted_identifier (Instance.collection_name self) = Some table →
  ∃ s1 s2,
    Instance.delete_col quoted_identifier self s = (Returned (), s1)
    ∧ Instance.tables s1 = delete table (Instance.tables s)
    ∧ Instance.delete_col quoted_identifier self s1 = (Returned (), s2)
    ∧ Instance.tables s2 = Instance.tables s1
    ∧ (∀ (query : string) (q : list num) (limit : Z)
         (filters : option (list (string * scalar num))),
         plain_keys (filter_items filters) →
         Instance.on_collection quoted_identifier self
           (TiDB.search VEC_COSINE_DISTANCE query q limit filters) s1
         = (Raised ProgrammingError, s1))
    ∧ (∀ vector_id : string,
         Instance.on_collection quoted_identifier self
           (TiDB.get VEC_COSINE_DISTANCE vector_id) s1
         = (Raised ProgrammingError, s1))
    ∧ (∀ (filters : option (list (string * scalar num))) (limit : Z),
         plain_keys (filter_items filters) →
         Instance.on_collection quoted_identifier self
           (TiDB.list VEC_COSINE_DISTANCE filters limit) s1
         = (Raised ProgrammingError, s1))
    ∧ (∀ vector_id : string,
         Instance.on_collection quoted_identifier self
           (TiDB.delete VEC_COSINE_DISTANCE vector_id) s1
         = (Raised ProgrammingError, s1)).
Proof.
  intros Hplain Hname.
  set (s1 := Instance.with_tables s (delete table (Instance.tables s)) []).
  assert (Instance.tables s1 !! table = None) as Hnone.
  { cbn [s1 Instance.tables Instance.with_tables]. apply lookup_delete_eq. }
  exists s1. eexists.
  split_and!; [by apply delete_col_result|done|by apply delete_col_result|..].
  - cbn [Instance.tables Instance.with_tables]. apply delete_id. apply lookup_delete_eq.
  - intros query q limit filters Hkeys.
    apply (on_missing_table _ _ _ table); [done..|]. intros e. by apply search_sent.
  - intros vector_id. apply (on_missing_table _ _ _ table); [done..|].
    intros e. by rewrite get_result.
  - intros filters limit Hkeys.
    apply (on_missing_table _ _ _ table); [done..|]. intros e. by apply list_sent.
  - intros vector_id. apply (on_missing_table _ _ _ table); [done..|].
    intros e. by rewrite delete_result.
Qed.

(** X17. [reset] leaves the table the collection's name stands for in place
    and empty, whether or not there was one, and touches no other table;
    [list] and [search] on the collection, with filter keys that are plain
    member names, then return no record. The name has no [%], which the
    driver's formatting would take. *)
Theorem reset_empties_collection self (query : string) (q : list num)
    (filters : option (list (string * scalar num))) (limit : Z) s table :
  has_percent (Instance.collection_name self) = false →
  quoted_identifier (Instance.collection_name self) = Some table →
  0 ≤ limit →
  plain_keys (filter_items filters) →
  ∃ s1 s2,
    Instance.reset quoted_identifier self s = (Returned (), s1)
    ∧ Instance.tables s1 = <[table := []]> (Instance.tables s)
    ∧ Instance.on_collection quoted_identifier self
        (TiDB.list VEC_COSINE_DISTANCE filters limit) s1
      = (Returned [[]], s1)
    ∧ Instance.on_collection quoted_identifier self
        (TiDB.search VEC_COSINE_DISTANCE query q limit filters) s1
      = (Returned [], s2)
    ∧ Instance.tables s2 = Instance.tables s1.
Proof.
  intros Hplain Hname Hlimit Hkeys.
  set (s1 := Instance.with_tables s (<[table := []]> (Instance.tables s)) []).
  assert (Instance.reset quoted_identifier self s = (Returned (), s1)) as Hreset.
  { unfold Instance.reset, mbind, Instance.S_bind.
    rewrite (delete_col_result _ _ table), (create_col_result _ _ _ _ table) by done.
    cbn [Instance.tables Instance.with_tables Instance.schema Instance.drawn
         Instance.connected].
    rewrite lookup_delete_eq, insert_delete_eq. done. }
  assert (Instance.tables s1 !! table = Some []) as Hempty.
  { cbn [s1 Instance.tables Instance.with_tables]. apply lookup_insert_eq. }
  exists s1. eexists. split_and!; [exact Hreset|done|..].
  - unfold Instance.on_collection. rewrite Hplain, Hname, Hempty.
    rewrite list_result by (done || constructor).
    cbn [db_rows cur_rows uuid_drawn settled]. rewrite filter_nil, take_nil.
    cbn [fmap list_fmap]. rewrite insert_id by done. by destruct s.
  - unfold Instance.on_collection. rewrite Hplain, Hname, Hempty.
    destruct (search_result VEC_COSINE_DISTANCE query q limit filters
                (World [] (Instance.result_set s1) (Instance.drawn s1)))
      as (rs & -> & Hperm & _); [done|done|constructor|].
    cbn [db_rows] in Hperm. rewrite filter_nil in Hperm.
    apply Permutation_nil_r in Hperm as ->. by rewrite take_nil.
  - cbn [Instance.tables db_rows settled]. by rewrite insert_id.
Qed.

(** X18. Connected to the database it is configured with, [col_info]
    returns the empty mapping, and no error, when the database has no table
    of the collection's name. When it has one, it returns the name and the
    catalog's three figures, with 0 for a figure the catalog leaves NULL,
    and [total_size] is the sum of [data_size] and [index_size]. *)
Theorem col_info_reads_catalog self s :
  Instance.database self = Instance.schema s →
  (Instance.tables s !! Instance.collection_name self = None →
   Instance.col_info table_statistics self s
   = (Returned [], Instance.with_tables s (Instance.tables s) []))
  ∧ (∀ rows table_rows data_length index_length,
       Instance.tables s !! Instance.collection_name self = Some rows →
       table_statistics (Instance.collection_name self) rows
         = (table_rows, data_length, index_length) →
       Instance.col_info table_statistics self s
       = (Returned
            [("name"%string, SqlString (Instance.collection_name self));
             ("count"%string, SqlInt (default 0 table_rows));
             ("data_size"%string, SqlInt (default 0 data_length));
             ("index_size"%string, SqlInt (default 0 index_length));
             ("total_size"%string,
              SqlInt (default 0 data_length + default 0 index_length))],
          Instance.with_tables s (Instance.tables s) [])).
Proof.
  intros Hschema.
  assert (∀ v : option Z, Instance.or_zero (num := num) (Instance.bigint v)
                          = SqlInt (default 0 v)) as Hzero.
  { intros [z|]; [|done]. unfold Instance.or_zero. cbn.
    destruct (Z.eqb_spec z 0); by subst. }
  split.
  - intros Hnone. unfold Instance.col_info, mbind, Instance.S_bind.
    cbn [Instance.execute_table_info]. rewrite Hnone.
    by case_decide.
  - intros rows n d i Hrows Hstats.
    unfold Instance.col_info, mbind, Instance.S_bind.
    cbn [Instance.execute_table_info]. rewrite Hrows, Hstats, decide_True by done.
    cbn [Instance.server_fetchone Instance.result_set Instance.with_tables
         Instance.lift_result getitem lookup list_lookup].
    cbn. rewrite !Hzero. done.
Qed.
End LifecycleFacts.

(** * The further properties on the concrete instance *)

Lemma rows3_primary_key : NoDup (row_id <$> Demo.rows3).
Proof. compute_done. Qed.

Lemma get_returns_stored_row_witness :
  TiDB.get Demo.distance "c" (World Demo.rows3 [] 0)
  = Ok (Some (OutputData.mk (Some "c"%string) None (Some [])), World Demo.rows3 [] 0).
Proof.
  apply (get_returns_stored_row Demo.distance
           (Row "c" (TiDB.vector_value [3; 0]) None) (World Demo.rows3 [] 0)).
  - apply rows3_primary_key.
  - repeat constructor.
  - exact I.
Defined.

Lemma get_reads_other_json_payloads_witness :
  TiDB.get Demo.distance "n"
    (World [Row "n" (TiDB.vector_value [1]) (Some (JScalar PyNone))] [] 0)
  = Ok (Some (OutputData.mk (Some "n"%string) None None),
        World [Row "n" (TiDB.vector_value [1]) (Some (JScalar PyNone))] [] 0).
Proof.
  apply (get_reads_other_json_payloads Demo.distance
           (Row "n" (TiDB.vector_value [1]) (Some (JScalar PyNone)))
           (World [Row "n" (TiDB.vector_value [1]) (Some (JScalar PyNone))] [] 0)).
  - compute_done.
  - repeat constructor.
  - reflexivity.
Defined.

Lemma insert_then_get_witness :
  ∃ w1,
    TiDB.insert Demo.distance Demo.uuid4 [[1; 2]; [3; 4]]
      (Some [[("k", JScalar (PyStr "x"))]; []]%string) (Some ["d"; "e"]%string)
      (World Demo.rows3 [] 0) = Ok ((), w1)
    ∧ TiDB.get Demo.distance "d" w1
      = Ok (Some (OutputData.mk (Some "d"%string) None
                    (Some [("k"%string, JScalar (PyStr "x"))])), settled w1).
Proof.
  destruct (insert_then_get Demo.distance Demo.uuid4 [[1; 2]; [3; 4]]
              [[("k", JScalar (PyStr "x"))]; []]%string ["d"; "e"]%string
              (World Demo.rows3 [] 0))
    as (w1 & Hinsert & _ & Hget).
  - done.
  - reflexivity.
  - reflexivity.
  - compute_done.
  - apply rows3_primary_key.
  - compute_done.
  - apply Forall_forall. compute_done.
  - exists w1. split; [exact Hinsert|]. by apply (Hget 0%nat).
Defined.

Lemma insert_duplicate_id_raises_witness :
  TiDB.insert Demo.distance Demo.uuid4 [[1; 2]] (Some [[]]) (Some ["a"%string])
    (World Demo.rows3 [] 0) = Err IntegrityError.
Proof.
  apply insert_duplicate_id_raises.
  - done.
  - reflexivity.
  - reflexivity.
  - compute_done.
  - left. exists "a"%string. split; compute_done.
Defined.

Lemma insert_short_lists_raise_witness :
  TiDB.insert Demo.distance Demo.uuid4 [[1; 2]; [3; 4]] None (Some ["d"%string])
    (World Demo.rows3 [] 0) = Err IndexError.
Proof. apply insert_short_lists_raise. left. cbn. lia. Defined.

Lemma update_then_get_witness :
  ∃ w1,
    TiDB.update Demo.distance "a" None (Some [("k"%string, JScalar (PyInt 6))])
      (World Demo.rows3 [] 0) = Ok ((), w1)
    ∧ TiDB.get Demo.distance "a" w1
      = Ok (Some (OutputData.mk (Some "a"%string) None
                    (Some [("k"%string, JScalar (PyInt 6))])), settled w1).
Proof.
  destruct (update_then_get Demo.distance "a" None [("k"%string, JScalar (PyInt 6))]
              (World Demo.rows3 [] 0))
    as (w1 & Hupdate & _ & Hget).
  - apply rows3_primary_key.
  - compute_done.
  - exists w1. split; [exact Hupdate|exact Hget].
Defined.

Lemma search_reorders_list_witness :
  ∃ found listed,
    TiDB.search Demo.distance "q" [0; 0] 5 None (World Demo.rows3 [] 0)
      = Ok (found, World Demo.rows3 [] 0)
    ∧ TiDB.list Demo.distance None 5 (World Demo.rows3 [] 0)
      = Ok ([listed], World Demo.rows3 [] 0)
    ∧ length found = length listed.
Proof.
  destruct (search_reorders_list Demo.distance "q" [0; 0] 5 None (World Demo.rows3 [] 0))
    as (found & listed & Hsearch & Hlist & Hlen & _).
  - lia.
  - apply no_filter_keys.
  - apply rows3_payloads.
  - exists found, listed. split_and!; [exact Hsearch|exact Hlist|exact Hlen].
Defined.

Lemma limit_bounds_witness :
  TiDB.search Demo.distance "q" [0; 0] (-1) (Some [("k"%string, PyStr "v")])
    (World Demo.rows3 [] 0) = Err ProgrammingError
  ∧ TiDB.list Demo.distance (Some [("k"%string, PyStr "v")]) 0 (World Demo.rows3 [] 0)
    = Ok ([[]], World Demo.rows3 [] 0).
Proof.
  destruct (limit_bounds Demo.distance "q" [0; 0] (Some [("k"%string, PyStr "v")])
              (World Demo.rows3 [] 0)) as (Hnegative & _ & Hzero).
  - apply filter_key_k.
  - split; [apply (Hnegative (-1)); lia|exact Hzero].
Defined.

Lemma create_col_keeps_rows_witness :
  (∃ s',
     Instance.create_col DemoServer.quoted_identifier DemoServer.self0 1536 "cosine"
       DemoServer.server0 = (Returned (), s')
     ∧ Instance.tables s' !! "mem0"%string = Some Demo.rows3)
  ∧ Instance.create_col DemoServer.quoted_identifier
      (Instance.Adapter "127.0.0.1" 4000 "root" "secret" "mem0db" "a`b" 1536 ∅)
      1536 "cosine" DemoServer.server0
    = (Raised ProgrammingError, DemoServer.server0).
Proof.
  split.
  - destruct (create_col_keeps_rows DemoServer.quoted_identifier DemoServer.self0
                1536 "cosine" DemoServer.server0) as (s' & Hrun & Hrows & _).
    exists s'. split; [exact Hrun|exact Hrows].
  - exact (create_col_keeps_rows DemoServer.quoted_identifier
             (Instance.Adapter "127.0.0.1" 4000 "root" "secret" "mem0db" "a`b" 1536 ∅)
             1536 "cosine" DemoServer.server0).
Defined.

Lemma init_ensures_collection_witness :
  ∃ self s',
    Instance.__init__ DemoServer.accepts DemoServer.quoted_identifier
      "127.0.0.1" 4000 "root" "secret" "mem0db"
      "fresh" 1536 true None None None true true DemoServer.server0
    = (Returned self, s')
    ∧ Instance.tables s' !! "fresh"%string = Some []
    ∧ Instance.tables s' !! "mem0"%string = Some Demo.rows3.
Proof.
  destruct (init_ensures_collection DemoServer.accepts DemoServer.quoted_identifier
              "127.0.0.1" 4000 "root" "secret"
              "mem0db" "fresh" 1536 true None None None true true DemoServer.server0)
    as [_ Hinit]; [reflexivity|].
  destruct (Hinit eq_refl) as (s' & Hrun & Hfresh & Hothers & _).
  do 2 eexists. split_and!; [exact Hrun|exact Hfresh|].
  rewrite Hothers by done. reflexivity.
Defined.

Lemma delete_col_drops_collection_witness :
  ∃ s1,
    Instance.delete_col DemoServer.quoted_identifier DemoServer.self0 DemoServer.server0
    = (Returned (), s1)
    ∧ Instance.tables s1 = <["notes"%string := []]> ∅
    ∧ Instance.on_collection DemoServer.quoted_identifier DemoServer.self0
        (TiDB.get Demo.distance "a") s1
      = (Raised ProgrammingError, s1).
Proof.
  destruct (delete_col_drops_collection Demo.distance DemoServer.quoted_identifier
              DemoServer.self0 DemoServer.server0 "mem0")
    as (s1 & s2 & Hdrop & Htables & _ & _ & _ & Hget & _); [reflexivity..|].
  exists s1. split_and!; [exact Hdrop| |apply Hget].
  rewrite Htables. apply map_eq. intros name. cbn [Instance.tables DemoServer.server0].
  destruct (decide (name = "mem0"%string)) as [->|Hname].
  - rewrite lookup_delete_eq. reflexivity.
  - rewrite lookup_delete_ne, lookup_insert_ne by done. reflexivity.
Defined.

Lemma reset_empties_collection_witness :
  ∃ s1,
    Instance.reset DemoServer.quoted_identifier DemoServer.self0 DemoServer.server0
    = (Returned (), s1)
    ∧ Instance.on_collection DemoServer.quoted_identifier DemoServer.self0
        (TiDB.list Demo.distance None 100) s1
      = (Returned [[]], s1).
Proof.
  destruct (reset_empties_collection Demo.distance DemoServer.quoted_identifier
              DemoServer.self0 "q" [0; 0] None 100 DemoServer.server0 "mem0")
    as (s1 & s2 & Hreset & _ & Hlist & _).
  - reflexivity.
  - reflexivity.
  - lia.
  - apply no_filter_keys.
  - exists s1. split; [exact Hreset|exact Hlist].
Defined.

Lemma col_info_reads_catalog_witness :
  Instance.col_info DemoServer.statistics DemoServer.self0 DemoServer.server0
  = (Returned [("name"%string, SqlString "mem0"); ("count"%string, SqlInt 3);
               ("data_size"%string, SqlInt 16384); ("index_size"%string, SqlInt 0);
               ("total_size"%string, SqlInt 16384)],
     Instance.with_tables DemoServer.server0 (Instance.tables DemoServer.server0) []).
Proof.
  apply (proj2 (col_info_reads_catalog DemoServer.statistics DemoServer.self0
                  DemoServer.server0 eq_refl) Demo.rows3 (Some 3) (Some 16384) None);
    reflexivity.
Defined.

Lemma get_after_adapter_calls_witness :
  ∃ w, reachable Demo.distance Demo.uuid4 w
       ∧ length (db_rows w) = 2%nat
       ∧ TiDB.get Demo.distance "x" w
         = Ok (Some (OutputData.mk (Some "x"%string) None (Some [])), settled w).
Proof.
  set (r := Row "x" (TiDB.vector_value [1; 2]) (Some (JObj []))).
  set (w1 := World [r] [] 0).
  set (w2 := World (db_rows w1 ++ [Row (Demo.uuid4 0) (TiDB.vector_value [3; 4])
                                       (Some (JObj []))]) [] 1).
  assert (reachable Demo.distance Demo.uuid4 w2) as Hreach.
  { apply (reachable_call _ _ (CallInsert [[3; 4]] None None) w1); [|reflexivity].
    apply (reachable_call _ _ (CallInsert [[1; 2]] (Some [[]]) (Some ["x"%string]))
             Demo.w0); [|reflexivity].
    apply reachable_fresh. }
  exists w2. split_and!; [exact Hreach|reflexivity|].
  apply (get_after_adapter_calls Demo.distance Demo.uuid4 r w2 Hreach).
  repeat constructor.
Defined.
